(** * Queue state manager (src/context/QueueContext.tsx)

    A shallow embedding of the React context that holds the three
    collections [services], [counters] and [queue], and of the operations
    the provider exports.  Every operation is a function from the state a
    render captured (the closure's [services], [counters], [queue]) to the
    value returned to the caller and the state after the queued functional
    updates ([setQueue (prev => ...)] and the like) have been applied.  One
    operation runs per render, so the captured collections and the [prev]
    the updaters receive are the same values.

    Numbers are JavaScript numbers holding integers (sequence numbers,
    counter ids, millisecond timestamps); they are embedded as [Z].
    [Date.now ()] and [new Date ()] are inputs of the operation that reads
    them. *)

From Stdlib Require Import ZArith List String Ascii Bool Lia.
From Stdlib Require Import Sorted Permutation DecimalString DecimalZ.
Import ListNotations.

Local Open Scope string_scope.
Local Open Scope list_scope.
Local Open Scope Z_scope.

(** ** The parts of the JavaScript runtime the module relies on *)

Module JS.

(** [Number.prototype.toString] on an integer: decimal digits, a leading
    minus sign for negative values. *)
Definition toString (n : Z) : string :=
  NilZero.string_of_int (Z.to_int n).

Fixpoint fill (k : nat) (c : ascii) : string :=
  match k with
  | O => EmptyString
  | S k' => String c (fill k' c)
  end.

(** [s.padStart (target, c)] with a one-character filler. *)
Definition padStart (s : string) (target : nat) (c : ascii) : string :=
  if Nat.leb target (String.length s) then s
  else (fill (target - String.length s) c ++ s)%string.

(** [Array.prototype.findIndex]: the index of the first match, [-1]
    when there is none. *)
Fixpoint findIndex {A : Type} (p : A -> bool) (l : list A) : Z :=
  match l with
  | [] => -1
  | x :: l' =>
      if p x then 0
      else let i := findIndex p l' in if i <? 0 then -1 else i + 1
  end.

Section Sort.
Context {A : Type}.
Variable cmp : A -> A -> Z.

(** [Array.prototype.sort (cmp)].  ECMAScript requires the sort to be
    stable; for a comparator that is a consistent ordering of the
    elements sorted the result is therefore unique, and a stable
    insertion sort computes it.  For a comparator that is not one (such
    as [addToQueue]'s as soon as a ticket that is not waiting is queued)
    the order is left to the engine and only the elements of the result
    are determined: the properties below use the order of a result only
    where the comparator is consistent on the list sorted, and otherwise
    only that the result is a permutation of the list. *)
Fixpoint insert (x : A) (l : list A) : list A :=
  match l with
  | [] => [x]
  | y :: l' => if cmp x y <=? 0 then x :: y :: l' else y :: insert x l'
  end.

Fixpoint sort (l : list A) : list A :=
  match l with
  | [] => []
  | x :: l' => insert x (sort l')
  end.
End Sort.

End JS.

(** ** Data model *)

Inductive CounterStatus := active | inactive.
Inductive TicketStatus := waiting | serving | completed.
Inductive Priority := normal | urgent | vip.

Module ServiceType.
Record t := mk {
  id : string;
  name : string;
  prefix : string;
  currentNumber : Z;
  served : Z;
  waiting : Z
}.
End ServiceType.

Module Counter.
Record t := mk {
  id : Z;
  name : string;
  status : CounterStatus;
  currentlyServing : option string;
  serviceType : option string
}.
End Counter.

Module QueueTicket.
Record t := mk {
  id : string;
  number : string;
  serviceType : string;
  status : TicketStatus;
  timestamp : Z;
  counterAssigned : option Z;
  customerName : option string;
  purpose : option string;
  priority : Priority;
  estimatedWaitTime : option Z;
  calledAt : option Z;
  completedAt : option Z;
  notes : option string
}.
End QueueTicket.

(** [Partial<QueueTicket>]: a field that is present overrides the ticket's
    field when the object is spread over the ticket. *)
Module Patch.
Record t := mk {
  id : option string;
  number : option string;
  serviceType : option string;
  status : option TicketStatus;
  timestamp : option Z;
  counterAssigned : option (option Z);
  customerName : option (option string);
  purpose : option (option string);
  priority : option Priority;
  estimatedWaitTime : option (option Z);
  calledAt : option (option Z);
  completedAt : option (option Z);
  notes : option (option string)
}.

Definition empty : t :=
  mk None None None None None None None None None None None None None.
End Patch.

Record State := mkState {
  services : list ServiceType.t;
  counters : list Counter.t;
  queue : list QueueTicket.t
}.

Definition status_eqb (a b : TicketStatus) : bool :=
  match a, b with
  | waiting, waiting | serving, serving | completed, completed => true
  | _, _ => false
  end.

Definition cstatus_eqb (a b : CounterStatus) : bool :=
  match a, b with
  | active, active | inactive, inactive => true
  | _, _ => false
  end.

(** ** Initial values and [clearAllData] *)

Definition initialServices : list ServiceType.t :=
  [ ServiceType.mk "general" "Pelayanan Umum" "A" 0 0 0;
    ServiceType.mk "facility" "Fasilitas" "D" 0 0 0 ].

Definition initialCounters : list Counter.t :=
  [ Counter.mk 1 "Counter 1" active None None;
    Counter.mk 2 "Counter 2" active None None;
    Counter.mk 3 "Counter 3" inactive None None;
    Counter.mk 4 "Counter 4" inactive None None ].

(** The state of a first run: nothing in the persistent store, so each
    [useState] initialiser falls back to its default. *)
Definition initialState : State :=
  mkState initialServices initialCounters [].

Definition clearAllData (st : State) : State :=
  mkState initialServices initialCounters [].

(** ** Queries *)

Definition isWaitingFor (serviceType : string) (ticket : QueueTicket.t) : bool :=
  (QueueTicket.serviceType ticket =? serviceType)%string
  && status_eqb (QueueTicket.status ticket) waiting.

Definition getWaitingCount (st : State) (serviceType : string) : Z :=
  Z.of_nat (List.length (filter (isWaitingFor serviceType) (queue st))).

Definition getEstimatedWaitTime (st : State) (serviceType : string) : Z :=
  let waitingCount := getWaitingCount st serviceType in
  let avgServiceTime := 5 in
  waitingCount * avgServiceTime.

Definition byTimestamp (a b : QueueTicket.t) : Z :=
  QueueTicket.timestamp a - QueueTicket.timestamp b.

Definition getTicketPosition (st : State) (ticketId : string) : option Z :=
  match find (fun t => (QueueTicket.id t =? ticketId)%string) (queue st) with
  | None => None
  | Some ticket =>
      if negb (status_eqb (QueueTicket.status ticket) waiting) then None
      else
        let waitingTickets :=
          JS.sort byTimestamp
            (filter (isWaitingFor (QueueTicket.serviceType ticket)) (queue st)) in
        Some (JS.findIndex (fun t => (QueueTicket.id t =? ticketId)%string) waitingTickets + 1)
  end.

Definition getAllWaitingTickets (st : State) : list QueueTicket.t :=
  JS.sort byTimestamp
    (filter (fun ticket => status_eqb (QueueTicket.status ticket) waiting) (queue st)).

Definition getServiceByPrefix (st : State) (prefix : string) : option ServiceType.t :=
  find (fun service => (ServiceType.prefix service =? prefix)%string) (services st).

Definition getTicketById (st : State) (ticketId : string) : option QueueTicket.t :=
  find (fun ticket => (QueueTicket.id ticket =? ticketId)%string) (queue st).

(** ** The effect that recomputes the waiting counts

    It runs after every render in which [queue] or [services] changed and
    stores the recomputed services only when some count differs. *)

Definition withWaiting (q : list QueueTicket.t) (service : ServiceType.t)
  : ServiceType.t :=
  let waitingCount :=
    Z.of_nat (List.length (filter (isWaitingFor (ServiceType.id service)) q)) in
  ServiceType.mk (ServiceType.id service) (ServiceType.name service)
    (ServiceType.prefix service) (ServiceType.currentNumber service)
    (ServiceType.served service) waitingCount.

Definition recomputeWaiting (st : State) : State :=
  let updatedServices := map (withWaiting (queue st)) (services st) in
  let hasChanged :=
    existsb (fun p => negb (ServiceType.waiting (fst p) =? ServiceType.waiting (snd p)))
      (combine (services st) updatedServices) in
  if hasChanged then mkState updatedServices (counters st) (queue st) else st.

(** ** [addToQueue] *)

Definition priorityOrder (p : Priority) : Z :=
  match p with vip => 3 | urgent => 2 | normal => 1 end.

(** The comparator [callNext] sorts with. *)
Definition byPriority (a b : QueueTicket.t) : Z :=
  let aPriority := priorityOrder (QueueTicket.priority a) in
  let bPriority := priorityOrder (QueueTicket.priority b) in
  if negb (aPriority =? bPriority) then bPriority - aPriority
  else QueueTicket.timestamp a - QueueTicket.timestamp b.

(** The comparator [addToQueue] sorts with: a pair with a ticket that is
    not waiting compares equal. *)
Definition byPriorityWaiting (a b : QueueTicket.t) : Z :=
  if negb (status_eqb (QueueTicket.status a) waiting)
     || negb (status_eqb (QueueTicket.status b) waiting)
  then 0
  else byPriority a b.

Definition setCurrentNumber (newNumber : Z) (s : ServiceType.t) : ServiceType.t :=
  ServiceType.mk (ServiceType.id s) (ServiceType.name s) (ServiceType.prefix s)
    newNumber (ServiceType.served s) (ServiceType.waiting s).

(** [nowId] is the reading of [Date.now ()] that goes into the id, [nowTs]
    the instant [new Date ()] records; an omitted [priority] is ["normal"].
    The sum [currentNumber + 1] is the integer sum, which is what the
    addition of JavaScript numbers computes as long as the operand and the
    result are integers of magnitude at most [2 ^ 53]; statements about the
    values of issued numbers carry that bound. *)
Definition addToQueue (st : State) (serviceType : string)
    (customerName purpose : option string) (priority : option Priority)
    (nowId nowTs : Z) : string * State :=
  match find (fun s => (ServiceType.id s =? serviceType)%string) (services st) with
  | None => ("", st)
  | Some service =>
      let newNumber := ServiceType.currentNumber service + 1 in
      let ticketNumber :=
        (ServiceType.prefix service ++ JS.padStart (JS.toString newNumber) 3 "0")%string in
      let waitingCount := getWaitingCount st serviceType in
      let avgServiceTime := 5 in
      let estimatedWait := waitingCount * avgServiceTime in
      let newTicket :=
        QueueTicket.mk (serviceType ++ "-" ++ JS.toString nowId)%string ticketNumber
          serviceType waiting nowTs None customerName purpose
          (match priority with Some p => p | None => normal end)
          (Some estimatedWait) None None None in
      let newQueue := queue st ++ [newTicket] in
      (ticketNumber,
       mkState
         (map (fun s => if (ServiceType.id s =? serviceType)%string
                        then setCurrentNumber newNumber s else s) (services st))
         (counters st)
         (JS.sort byPriorityWaiting newQueue))
  end.

(** ** [callNext] *)

Definition callTicket (counterId now : Z) (ticket : QueueTicket.t) : QueueTicket.t :=
  QueueTicket.mk (QueueTicket.id ticket) (QueueTicket.number ticket)
    (QueueTicket.serviceType ticket) serving (QueueTicket.timestamp ticket)
    (Some counterId) (QueueTicket.customerName ticket) (QueueTicket.purpose ticket)
    (QueueTicket.priority ticket) (QueueTicket.estimatedWaitTime ticket)
    (Some now) (QueueTicket.completedAt ticket) (QueueTicket.notes ticket).

Definition setCurrentlyServing (v : option string) (counter : Counter.t) : Counter.t :=
  Counter.mk (Counter.id counter) (Counter.name counter) (Counter.status counter)
    v (Counter.serviceType counter).

(** [now] is the instant [new Date ()] stores in [calledAt].  Nothing in
    the body throws, so the [catch] branch is never taken. *)
Definition callNext (st : State) (counterId : Z) (serviceType : string) (now : Z)
  : option QueueTicket.t * State :=
  let waitingTickets :=
    JS.sort byPriority (filter (isWaitingFor serviceType) (queue st)) in
  match nth_error waitingTickets 0 with
  | None => (None, st)
  | Some nextTicket =>
      match find (fun c => Counter.id c =? counterId) (counters st) with
      | None => (None, st)
      | Some counter =>
          if negb (cstatus_eqb (Counter.status counter) active) then (None, st)
          else
            (Some nextTicket,
             mkState (services st)
               (map (fun counter =>
                       if Counter.id counter =? counterId
                       then setCurrentlyServing (Some (QueueTicket.number nextTicket)) counter
                       else counter) (counters st))
               (map (fun ticket =>
                       if (QueueTicket.id ticket =? QueueTicket.id nextTicket)%string
                       then callTicket counterId now ticket
                       else ticket) (queue st)))
      end
  end.

(** ** [completeService] *)

Definition completeTicket (now : Z) (notes : option string) (t : QueueTicket.t)
  : QueueTicket.t :=
  QueueTicket.mk (QueueTicket.id t) (QueueTicket.number t)
    (QueueTicket.serviceType t) completed (QueueTicket.timestamp t)
    (QueueTicket.counterAssigned t) (QueueTicket.customerName t) (QueueTicket.purpose t)
    (QueueTicket.priority t) (QueueTicket.estimatedWaitTime t)
    (QueueTicket.calledAt t) (Some now) notes.

Definition incrServed (service : ServiceType.t) : ServiceType.t :=
  ServiceType.mk (ServiceType.id service) (ServiceType.name service)
    (ServiceType.prefix service) (ServiceType.currentNumber service)
    (ServiceType.served service + 1) (ServiceType.waiting service).

(** The condition [if (ticket.counterAssigned)]: an optional number is
    truthy when it is present and is not zero. *)
Definition truthy (n : option Z) : bool :=
  match n with
  | Some v => negb (v =? 0)
  | None => false
  end.

Definition completeService (st : State) (ticketId : string) (notes : option string)
    (now : Z) : State :=
  match find (fun t => (QueueTicket.id t =? ticketId)%string) (queue st) with
  | None => st
  | Some ticket =>
      if negb (status_eqb (QueueTicket.status ticket) serving) then st
      else
        let queue' :=
          map (fun t => if (QueueTicket.id t =? ticketId)%string
                        then completeTicket now notes t else t) (queue st) in
        if truthy (QueueTicket.counterAssigned ticket) then
          mkState
            (map (fun service =>
                    if (ServiceType.id service =? QueueTicket.serviceType ticket)%string
                    then incrServed service else service) (services st))
            (map (fun counter =>
                    if match QueueTicket.counterAssigned ticket with
                       | Some c => Counter.id counter =? c
                       | None => false
                       end
                    then setCurrentlyServing None counter else counter) (counters st))
            queue'
        else mkState (services st) (counters st) queue'
  end.

(** ** Counter settings and [updateTicket] *)

Definition setCounterStatus (st : State) (counterId : Z) (status : CounterStatus)
  : State :=
  mkState (services st)
    (map (fun counter =>
            if Counter.id counter =? counterId
            then Counter.mk (Counter.id counter) (Counter.name counter) status
                   (Counter.currentlyServing counter) (Counter.serviceType counter)
            else counter) (counters st))
    (queue st).

Definition setCounterService (st : State) (counterId : Z) (serviceType : option string)
  : State :=
  mkState (services st)
    (map (fun counter =>
            if Counter.id counter =? counterId
            then Counter.mk (Counter.id counter) (Counter.name counter)
                   (Counter.status counter) (Counter.currentlyServing counter) serviceType
            else counter) (counters st))
    (queue st).

Definition override {A : Type} (old : A) (upd : option A) : A :=
  match upd with Some v => v | None => old end.

(** [{ ...ticket, ...updates }] *)
Definition applyPatch (ticket : QueueTicket.t) (updates : Patch.t) : QueueTicket.t :=
  QueueTicket.mk
    (override (QueueTicket.id ticket) (Patch.id updates))
    (override (QueueTicket.number ticket) (Patch.number updates))
    (override (QueueTicket.serviceType ticket) (Patch.serviceType updates))
    (override (QueueTicket.status ticket) (Patch.status updates))
    (override (QueueTicket.timestamp ticket) (Patch.timestamp updates))
    (override (QueueTicket.counterAssigned ticket) (Patch.counterAssigned updates))
    (override (QueueTicket.customerName ticket) (Patch.customerName updates))
    (override (QueueTicket.purpose ticket) (Patch.purpose updates))
    (override (QueueTicket.priority ticket) (Patch.priority updates))
    (override (QueueTicket.estimatedWaitTime ticket) (Patch.estimatedWaitTime updates))
    (override (QueueTicket.calledAt ticket) (Patch.calledAt updates))
    (override (QueueTicket.completedAt ticket) (Patch.completedAt updates))
    (override (QueueTicket.notes ticket) (Patch.notes updates)).

Definition updateTicket (st : State) (ticketId : string) (updates : Patch.t) : State :=
  mkState (services st) (counters st)
    (map (fun ticket =>
            if (QueueTicket.id ticket =? ticketId)%string
            then applyPatch ticket updates else ticket) (queue st)).

(** ** Sequences of operations

    A call of the public interface together with the clock readings it
    makes.  After the call's updates are applied the waiting-count effect
    runs, which gives the state the next call captures. *)

Inductive Op :=
| AddToQueue (serviceType : string) (customerName purpose : option string)
    (priority : option Priority) (nowId nowTs : Z)
| CallNext (counterId : Z) (serviceType : string) (now : Z)
| CompleteService (ticketId : string) (notes : option string) (now : Z)
| UpdateTicket (ticketId : string) (updates : Patch.t)
| SetCounterStatus (counterId : Z) (status : CounterStatus)
| SetCounterService (counterId : Z) (serviceType : option string)
| ClearAllData.

Definition apply (st : State) (op : Op) : State :=
  match op with
  | AddToQueue s n p pr nowId nowTs => snd (addToQueue st s n p pr nowId nowTs)
  | CallNext c s now => snd (callNext st c s now)
  | CompleteService t notes now => completeService st t notes now
  | UpdateTicket t u => updateTicket st t u
  | SetCounterStatus c s => setCounterStatus st c s
  | SetCounterService c s => setCounterService st c s
  | ClearAllData => clearAllData st
  end.

Definition step (st : State) (op : Op) : State := recomputeWaiting (apply st op).

Definition run (st : State) (ops : list Op) : State := fold_left step ops st.

(** The ticket numbers a sequence of [addToQueue] calls returns, in call
    order; other operations return nothing of interest here. *)
Fixpoint issued (st : State) (ops : list Op) : list (string * string) :=
  match ops with
  | [] => []
  | op :: ops' =>
      match op with
      | AddToQueue s n p pr nowId nowTs =>
          [(s, fst (addToQueue st s n p pr nowId nowTs))]
      | _ => []
      end ++ issued (step st op) ops'
  end.

(** ** Vocabulary of the statements *)

(** The serving order: a higher priority first, and within one priority
    the earlier creation instant first. *)
Definition servedBefore (a b : QueueTicket.t) : Prop :=
  priorityOrder (QueueTicket.priority a) > priorityOrder (QueueTicket.priority b)
  \/ (QueueTicket.priority a = QueueTicket.priority b
      /\ QueueTicket.timestamp a <= QueueTicket.timestamp b).

Definition isAddToQueue (op : Op) : Prop :=
  match op with
  | AddToQueue _ _ _ _ _ _ => True
  | _ => False
  end.



(** The counter an id denotes: the first one that carries it, which is the
    one [counters.find] returns. *)
Definition counterWithId (st : State) (counterId : Z) : option Counter.t :=
  find (fun c => Counter.id c =? counterId) (counters st).

(** A state that differs from [st] only in what its counters record as
    their assigned service and as the ticket they are serving. *)
Definition reassignCounters (cur svc : Counter.t -> option string) (st : State) : State :=
  mkState (services st)
    (map (fun c => Counter.mk (Counter.id c) (Counter.name c) (Counter.status c)
                     (cur c) (svc c)) (counters st))
    (queue st).

(** ** Sample states *)

(** Alice, then Bob, take a ticket for the general service. *)
Definition aliceThenBob : State :=
  run initialState
    [AddToQueue "general" (Some "Alice") (Some "renew ID") (Some normal) 1000 1000;
     AddToQueue "general" (Some "Bob") (Some "complaint") (Some vip) 1005 1005].

(** A deployment whose persisted counters include one with id 0, after a
    customer took a ticket and that counter called it. *)
Definition counterZeroServing : State :=
  run (mkState initialServices
         [Counter.mk 0 "Counter 0" active None None;
          Counter.mk 1 "Counter 1" active None None] [])
    [AddToQueue "general" (Some "Alice") None None 1000 1000;
     CallNext 0 "general" 2000].

(** The number of tickets of a queue that wait for a service, counted one
    ticket at a time. *)
Fixpoint countWaiting (serviceType : string) (q : list QueueTicket.t) : Z :=
  match q with
  | [] => 0
  | t :: q' =>
      (match QueueTicket.status t with
       | waiting => if (QueueTicket.serviceType t =? serviceType)%string then 1 else 0
       | _ => 0
       end) + countWaiting serviceType q'
  end.

(** ** Reading a ticket number back *)

(** The value of a non-empty string of decimal digits. *)
Definition digitsValue (s : string) : option Z :=
  option_map Z.of_uint (NilZero.uint_of_string s).

Fixpoint stripPrefix (p s : string) : option string :=
  match p with
  | EmptyString => Some s
  | String a p' =>
      match s with
      | EmptyString => None
      | String b s' => if Ascii.eqb a b then stripPrefix p' s' else None
      end
  end.

(** The numeric part of a ticket number: what follows the service prefix,
    read as a decimal number. *)
Definition numericPart (prefix number : string) : option Z :=
  match stripPrefix prefix number with
  | Some digits => digitsValue digits
  | None => None
  end.

(** The numbers issued for one service, in call order. *)
Definition numbersFor (serviceType : string) (l : list (string * string)) : list string :=
  map snd (filter (fun p => (fst p =? serviceType)%string) l).

(** How many calls of a sequence ask for a ticket of the service. *)
Definition callsOn (serviceType : string) (ops : list Op) : nat :=
  List.length
    (filter (fun op => match op with
                       | AddToQueue s _ _ _ _ _ => (s =? serviceType)%string
                       | _ => false
                       end) ops).

(** Where the ticket with a given number stands in a sequence of tickets. *)
Definition indexOfNumber (number : string) (l : list QueueTicket.t) : Z :=
  JS.findIndex (fun t => (QueueTicket.number t =? number)%string) l.

(** The rank of ticket [t] among the waiting tickets of its service when
    they are ordered by creation timestamp alone, [before] and [after] being
    the tickets that precede and follow it in the queue: one more than the
    number of such tickets that were created earlier, or at the same instant
    and stand before it. *)
Definition rankByTimestamp (t : QueueTicket.t) (before after : list QueueTicket.t) : Z :=
  1
  + Z.of_nat (List.length
                (filter (fun x => isWaitingFor (QueueTicket.serviceType t) x
                                  && (QueueTicket.timestamp x <=? QueueTicket.timestamp t))
                   before))
  + Z.of_nat (List.length
                (filter (fun x => isWaitingFor (QueueTicket.serviceType t) x
                                  && (QueueTicket.timestamp x <? QueueTicket.timestamp t))
                   after)).

(** ** Ticket life cycle *)

(** A status stays, or moves one step along waiting, serving, completed. *)
Definition forward (s s' : TicketStatus) : Prop :=
  s' = s \/ (s = waiting /\ s' = serving) \/ (s = serving /\ s' = completed).

(** The id [addToQueue] gives the ticket it creates. *)
Definition newTicketId (serviceType : string) (nowId : Z) : string :=
  (serviceType ++ "-" ++ JS.toString nowId)%string.

(** The operations under which the life cycle is kept: a patch passed to
    [updateTicket] sets neither the status nor the id, and the id an
    [addToQueue] call generates is not in the queue yet. *)
Definition allowed (st : State) (op : Op) : Prop :=
  match op with
  | UpdateTicket _ updates => Patch.status updates = None /\ Patch.id updates = None
  | AddToQueue serviceType _ _ _ nowId _ =>
      ~ In (newTicketId serviceType nowId) (map QueueTicket.id (queue st))
  | _ => True
  end.

Fixpoint allowedAlong (st : State) (ops : list Op) : Prop :=
  match ops with
  | [] => True
  | op :: ops' => allowed st op /\ allowedAlong (step st op) ops'
  end.

Definition setStatusPatch (status : TicketStatus) : Patch.t :=
  Patch.mk None None None (Some status) None None None None None None None None None.

(** Alice's ticket, taken, called at counter 1 and completed. *)
Definition aliceServed : State :=
  run initialState
    [AddToQueue "general" (Some "Alice") None None 1000 1000;
     CallNext 1 "general" 2000;
     CompleteService "general-1000" None 3000].

(** ** Ticket statistics of the support-ticket hook (src/hooks/useTickets.ts)

    The hook keeps the list of support tickets the listener delivers; its
    two helpers are pure functions of that list. *)

Module Tickets.

Inductive Status := pending | inProgress | resolved | closed.
Inductive Priority := low | medium | high | urgent.

Definition status_eqb (a b : Status) : bool :=
  match a, b with
  | pending, pending | inProgress, inProgress
  | resolved, resolved | closed, closed => true
  | _, _ => false
  end.

Record Ticket := mkTicket {
  id : option string;
  title : string;
  description : string;
  status : Status;
  priority : Priority;
  category : string;
  assignee : option string;
  reporter : string;
  createdAt : Z;
  updatedAt : Z
}.

(** The object [getTicketStats] returns; its count fields are [pending],
    [inProgress], [resolved] and [closed] in the source, names the statuses
    already carry here. *)
Record Stats := mkStats {
  total : Z;
  pendingCount : Z;
  inProgressCount : Z;
  resolvedCount : Z;
  closedCount : Z
}.

Definition getTicketsByStatus (tickets : list Ticket) (s : Status) : list Ticket :=
  filter (fun ticket => status_eqb (status ticket) s) tickets.

Definition getTicketStats (tickets : list Ticket) : Stats :=
  mkStats
    (Z.of_nat (List.length tickets))
    (Z.of_nat (List.length (filter (fun t => status_eqb (status t) pending) tickets)))
    (Z.of_nat (List.length (filter (fun t => status_eqb (status t) inProgress) tickets)))
    (Z.of_nat (List.length (filter (fun t => status_eqb (status t) resolved) tickets)))
    (Z.of_nat (List.length (filter (fun t => status_eqb (status t) closed) tickets))).

End Tickets.

(** ** Further vocabulary *)

(** The number of tickets an operation adds to the queue: one for an
    [addToQueue] call that names a known service. *)
Definition ticketsAdded (st : State) (op : Op) : nat :=
  match op with
  | AddToQueue serviceType _ _ _ _ _ =>
      match find (fun s => (ServiceType.id s =? serviceType)%string) (services st) with
      | Some _ => 1%nat
      | None => 0%nat
      end
  | _ => 0%nat
  end.

(** A service record that an operation may have advanced: same identity,
    counters of issued and served tickets not smaller. *)
Definition serviceAdvanced (s s' : ServiceType.t) : Prop :=
  ServiceType.id s' = ServiceType.id s
  /\ ServiceType.name s' = ServiceType.name s
  /\ ServiceType.prefix s' = ServiceType.prefix s
  /\ ServiceType.currentNumber s <= ServiceType.currentNumber s'
  /\ ServiceType.served s <= ServiceType.served s'.

Definition sameCounter (c c' : Counter.t) : Prop :=
  Counter.id c' = Counter.id c /\ Counter.name c' = Counter.name c.

(** All waiting tickets of a service have one priority. *)
Definition onePriority (st : State) (serviceType : string) : Prop :=
  forall a b, In a (queue st) -> In b (queue st) ->
    isWaitingFor serviceType a = true -> isWaitingFor serviceType b = true ->
    QueueTicket.priority a = QueueTicket.priority b.

(** ** Served statistics *)

Definition isCompletedFor (serviceType : string) (ticket : QueueTicket.t) : bool :=
  (QueueTicket.serviceType ticket =? serviceType)%string
  && status_eqb (QueueTicket.status ticket) completed.

(** The number of completed tickets of a service in a queue. *)
Definition countCompleted (q : list QueueTicket.t) (serviceType : string) : Z :=
  Z.of_nat (List.length (filter (isCompletedFor serviceType) q)).

Definition noUpdateTicket (op : Op) : Prop :=
  match op with
  | UpdateTicket _ _ => False
  | _ => True
  end.

(** A state whose statistics agree with its queue: ticket ids are unique,
    no counter has id 0, every ticket being served is assigned to a counter
    with a non-zero id, and every service has served as many tickets as the
    queue holds completed ones for it. *)
Definition statisticsConsistent (st : State) : Prop :=
  NoDup (map QueueTicket.id (queue st))
  /\ Forall (fun c => Counter.id c <> 0) (counters st)
  /\ Forall (fun t => QueueTicket.status t = serving ->
                      exists c, QueueTicket.counterAssigned t = Some c /\ c <> 0)
       (queue st)
  /\ Forall (fun s => ServiceType.served s = countCompleted (queue st) (ServiceType.id s))
       (services st).

(** The number of tickets of a service in a queue, whatever their status. *)
Definition countTickets (q : list QueueTicket.t) (serviceType : string) : Z :=
  Z.of_nat (List.length
              (filter (fun t => (QueueTicket.serviceType t =? serviceType)%string) q)).

(** A state in which every service has issued as many numbers as the queue
    holds tickets for it. *)
Definition numberingConsistent (st : State) : Prop :=
  Forall (fun s => ServiceType.currentNumber s
                   = countTickets (queue st) (ServiceType.id s)) (services st).

(** ** Exact numbers, service records and id-preserving operations *)

(** The integers on which the arithmetic of JavaScript numbers is exact:
    those of magnitude at most [2 ^ 53]. *)
Definition exactInteger (z : Z) : Prop := - 2 ^ 53 <= z <= 2 ^ 53.


(** The operations that keep ticket ids unique: the id an [addToQueue]
    call generates is not in the queue yet, and a patch passed to
    [updateTicket] writes no id (it may write anything else). *)
Definition keepsIds (st : State) (op : Op) : Prop :=
  match op with
  | UpdateTicket _ updates => Patch.id updates = None
  | AddToQueue serviceType _ _ _ nowId _ =>
      ~ In (newTicketId serviceType nowId) (map QueueTicket.id (queue st))
  | _ => True
  end.

Fixpoint keepsIdsAlong (st : State) (ops : list Op) : Prop :=
  match ops with
  | [] => True
  | op :: ops' => keepsIds st op /\ keepsIdsAlong (step st op) ops'
  end.

(** Three customers wait for the general service with the same priority,
    and one, with priority, for the facility service. *)
Definition severalWaiting : State :=
  run initialState
    [AddToQueue "general" (Some "Alice") None None 1000 1000;
     AddToQueue "facility" (Some "Dana") None (Some vip) 1002 1002;
     AddToQueue "general" (Some "Bob") None None 1005 1005;
     AddToQueue "general" (Some "Carol") None (Some normal) 1010 1010].

(** * Properties *)

(** ** Facts about the runtime model *)

Section SortFacts.
Context {A : Type}.
Variable cmp : A -> A -> Z.

Lemma insert_perm (x : A) (l : list A) : Permutation (JS.insert cmp x l) (x :: l).
Proof.
  induction l as [|y l IH]; simpl.
  - apply Permutation_refl.
  - destruct (cmp x y <=? 0).
    + apply Permutation_refl.
    + eapply perm_trans; [apply perm_skip, IH | apply perm_swap].
Qed.

Lemma sort_perm (l : list A) : Permutation (JS.sort cmp l) l.
Proof.
  induction l as [|x l IH]; simpl.
  - constructor.
  - eapply perm_trans; [apply insert_perm | apply perm_skip, IH].
Qed.

Lemma sort_In (l : list A) (x : A) : In x (JS.sort cmp l) <-> In x l.
Proof.
  split; apply Permutation_in; [|apply Permutation_sym]; apply sort_perm.
Qed.

Lemma sort_length (l : list A) : List.length (JS.sort cmp l) = List.length l.
Proof. apply Permutation_length, sort_perm. Qed.

Section Ordered.
(** The comparator is a consistent ordering on the elements that
    satisfy [P]. *)
Variable P : A -> Prop.
Hypothesis cmp_total : forall x y, P x -> P y -> cmp x y > 0 -> cmp y x <= 0.
Hypothesis cmp_trans :
  forall x y z, P x -> P y -> P z -> cmp x y <= 0 -> cmp y z <= 0 -> cmp x z <= 0.

Let le (x y : A) : Prop := cmp x y <= 0.

Lemma insert_sorted (x : A) (l : list A) :
  P x -> Forall P l ->
  StronglySorted le l -> StronglySorted le (JS.insert cmp x l).
Proof.
  intros Px Pl Hs. induction Hs as [|y l Hs IH Hy]; simpl.
  - repeat constructor.
  - inversion Pl as [|? ? Py Pl']; subst.
    destruct (cmp x y <=? 0) eqn:E.
    + apply Z.leb_le in E. constructor.
      * constructor; assumption.
      * constructor; [exact E|].
        rewrite Forall_forall in Hy, Pl' |- *. intros z Hz.
        apply (cmp_trans x y z); auto. apply Hy; exact Hz.
    + apply Z.leb_gt in E. constructor.
      * apply IH; assumption.
      * rewrite Forall_forall in Hy |- *. intros z Hz.
        apply (Permutation_in _ (insert_perm x l)) in Hz.
        destruct Hz as [<-|Hz].
        -- apply cmp_total; auto. lia.
        -- apply Hy; exact Hz.
Qed.

Lemma sort_sorted (l : list A) :
  Forall P l -> StronglySorted le (JS.sort cmp l).
Proof.
  induction l as [|x l IH]; simpl; intros Pl.
  - constructor.
  - inversion Pl as [|? ? Px Pl']; subst. apply insert_sorted.
    + exact Px.
    + apply Forall_forall. intros z Hz.
      apply (proj1 (sort_In l z)) in Hz.
      exact (proj1 (Forall_forall P l) Pl' z Hz).
    + apply IH, Pl'.
Qed.
End Ordered.

End SortFacts.

Lemma insert_ext {A : Type} (cmp cmp' : A -> A -> Z) (x : A) (l : list A) :
  (forall y, In y l -> cmp x y = cmp' x y) ->
  JS.insert cmp x l = JS.insert cmp' x l.
Proof.
  induction l as [|y l IH]; simpl; intros H; [reflexivity|].
  rewrite (H y) by now left.
  destruct (cmp' x y <=? 0); [reflexivity|].
  f_equal. apply IH. intros z Hz. apply H. now right.
Qed.

Lemma sort_ext {A : Type} (cmp cmp' : A -> A -> Z) (l : list A) :
  (forall x y, In x l -> In y l -> cmp x y = cmp' x y) ->
  JS.sort cmp l = JS.sort cmp' l.
Proof.
  induction l as [|x l IH]; simpl; intros H; [reflexivity|].
  rewrite IH by (intros; apply H; now right).
  apply insert_ext. intros y Hy. apply (proj1 (sort_In cmp' l y)) in Hy.
  apply H; [now left | now right].
Qed.


Lemma StronglySorted_weaken {A : Type} (R R' : A -> A -> Prop) (l : list A) :
  (forall x y, In x l -> In y l -> R x y -> R' x y) ->
  StronglySorted R l -> StronglySorted R' l.
Proof.
  intros H Hs. induction Hs as [|x l Hs IH Hx]; constructor.
  - apply IH. intros a b Ha Hb. apply H; now right.
  - rewrite Forall_forall in Hx |- *. intros y Hy.
    apply H; [now left | now right | apply Hx, Hy].
Qed.

(** ** The two comparators *)

Lemma status_eqb_eq (a b : TicketStatus) : status_eqb a b = true <-> a = b.
Proof. destruct a, b; simpl; split; intros H; congruence. Qed.

Lemma priorityOrder_inj (p q : Priority) : priorityOrder p = priorityOrder q -> p = q.
Proof. destruct p, q; simpl; intros H; congruence || discriminate. Qed.

Lemma byPriority_servedBefore (a b : QueueTicket.t) :
  byPriority a b <= 0 <-> servedBefore a b.
Proof.
  unfold byPriority, servedBefore.
  destruct (priorityOrder (QueueTicket.priority a) =? priorityOrder (QueueTicket.priority b)) eqn:E;
    simpl.
  - apply Z.eqb_eq in E. pose proof (priorityOrder_inj _ _ E) as Hp. split.
    + intros H. right. split; [exact Hp | lia].
    + intros [H|[_ H]]; lia.
  - apply Z.eqb_neq in E. split.
    + intros H. left. lia.
    + intros [H|[Hp _]]; [lia | rewrite Hp in E; congruence].
Qed.

Lemma byPriority_total (x y : QueueTicket.t) : byPriority x y > 0 -> byPriority y x <= 0.
Proof.
  unfold byPriority.
  rewrite (Z.eqb_sym (priorityOrder (QueueTicket.priority y))).
  destruct (priorityOrder (QueueTicket.priority x) =? priorityOrder (QueueTicket.priority y));
    simpl; lia.
Qed.

Lemma byPriority_trans (x y z : QueueTicket.t) :
  byPriority x y <= 0 -> byPriority y z <= 0 -> byPriority x z <= 0.
Proof.
  rewrite !byPriority_servedBefore. unfold servedBefore.
  intros [H1|[H1 H1']] [H2|[H2 H2']].
  - left; lia.
  - left; rewrite <- H2; exact H1.
  - left; rewrite H1; exact H2.
  - right; split; [congruence | lia].
Qed.


(** ** The effect touches nothing but the waiting counts *)

Lemma recomputeWaiting_queue (st : State) : queue (recomputeWaiting st) = queue st.
Proof. unfold recomputeWaiting. destruct (existsb _ _); reflexivity. Qed.

Lemma recomputeWaiting_counters (st : State) :
  counters (recomputeWaiting st) = counters st.
Proof. unfold recomputeWaiting. destruct (existsb _ _); reflexivity. Qed.

(** ** Ordering of the queue under [addToQueue] *)







(** ** [callNext] *)

Lemma cstatus_eqb_eq (a b : CounterStatus) : cstatus_eqb a b = true <-> a = b.
Proof. destruct a, b; simpl; split; intros H; congruence. Qed.

Lemma byPriority_refl (t : QueueTicket.t) : byPriority t t <= 0.
Proof. unfold byPriority. rewrite Z.eqb_refl. simpl. lia. Qed.

(** The head of the sorted candidates is a candidate that is served
    before every other one. *)
Lemma first_candidate (l : list QueueTicket.t) (next : QueueTicket.t) :
  nth_error (JS.sort byPriority l) 0 = Some next ->
  In next l /\ forall t, In t l -> servedBefore next t.
Proof.
  intros H.
  pose proof (sort_sorted byPriority (fun _ => True)
                (fun x y _ _ => byPriority_total x y)
                (fun x y z _ _ _ => byPriority_trans x y z) l) as Hs.
  specialize (Hs ltac:(apply Forall_forall; intros; exact I)).
  destruct (JS.sort byPriority l) as [|x rest] eqn:E; [discriminate|].
  simpl in H. injection H as ->.
  assert (Hin : forall t, In t l <-> In t (next :: rest)).
  { intros t. rewrite <- E. symmetry. apply sort_In. }
  split.
  - apply Hin. now left.
  - intros t Ht. apply byPriority_servedBefore. apply Hin in Ht.
    destruct Ht as [<-|Ht]; [apply byPriority_refl|].
    inversion Hs as [|? ? _ Hall]; subst.
    rewrite Forall_forall in Hall. apply Hall, Ht.
Qed.

Lemma candidates_nonempty (l : list QueueTicket.t) (t : QueueTicket.t) :
  In t l -> exists next, nth_error (JS.sort byPriority l) 0 = Some next.
Proof.
  intros Ht. apply (proj2 (sort_In byPriority l t)) in Ht.
  destruct (JS.sort byPriority l) as [|x rest]; [contradiction|].
  exists x. reflexivity.
Qed.

(** What a successful call computes. *)
Lemma callNext_success (st : State) (counterId : Z) (serviceType : string) (now : Z)
    (c : Counter.t) :
  (exists t, In t (queue st) /\ isWaitingFor serviceType t = true) ->
  counterWithId st counterId = Some c -> Counter.status c = active ->
  exists next,
    nth_error (JS.sort byPriority (filter (isWaitingFor serviceType) (queue st))) 0
      = Some next
    /\ callNext st counterId serviceType now
       = (Some next,
          mkState (services st)
            (map (fun counter =>
                    if Counter.id counter =? counterId
                    then setCurrentlyServing (Some (QueueTicket.number next)) counter
                    else counter) (counters st))
            (map (fun ticket =>
                    if (QueueTicket.id ticket =? QueueTicket.id next)%string
                    then callTicket counterId now ticket
                    else ticket) (queue st))).
Proof.
  intros [t [Ht Hw]] Hc Ha.
  destruct (candidates_nonempty (filter (isWaitingFor serviceType) (queue st)) t)
    as [next Hnext].
  { apply filter_In. split; assumption. }
  exists next. split; [exact Hnext|].
  unfold callNext. rewrite Hnext.
  unfold counterWithId in Hc. rewrite Hc, Ha. reflexivity.
Qed.

Lemma find_map_same_key {A : Type} (p : A -> bool) (f : A -> A) (l : list A) (x : A) :
  (forall y, p (f y) = p y) ->
  find p l = Some x -> find p (map f l) = Some (f x).
Proof.
  intros Hp. induction l as [|y l IH]; simpl; [discriminate|].
  rewrite Hp. destruct (p y); [intros [= ->]; reflexivity | exact IH].
Qed.

(** C2. [callNext] answers null when the service has no waiting ticket, and
    also when the counter is missing or is not active; in the latter case,
    although a ticket had been selected, queue, counters and services are
    exactly what they were. *)
Theorem callNext_null (st : State) (counterId : Z) (serviceType : string) (now : Z) :
  (forall t, In t (queue st) -> isWaitingFor serviceType t = false)
  \/ ((exists t, In t (queue st) /\ isWaitingFor serviceType t = true)
      /\ forall c, counterWithId st counterId = Some c -> Counter.status c <> active) ->
  callNext st counterId serviceType now = (None, st).
Proof.
  intros [Hnone | [_ Hcounter]]; unfold callNext.
  - replace (filter (isWaitingFor serviceType) (queue st)) with (@nil QueueTicket.t).
    + reflexivity.
    + symmetry. induction (queue st) as [|t q IH]; simpl; [reflexivity|].
      rewrite (Hnone t) by now left. apply IH. intros t' Ht'. apply Hnone. now right.
  - destruct (nth_error _ 0) as [next|]; [|reflexivity].
    unfold counterWithId in Hcounter.
    destruct (find _ (counters st)) as [c|]; [|reflexivity].
    specialize (Hcounter c eq_refl).
    destruct (Counter.status c); [contradiction | reflexivity].
Qed.

Lemma callNext_null_witness : callNext aliceThenBob 3 "general" 2000 = (None, aliceThenBob).
Proof.
  apply (callNext_null aliceThenBob 3 "general" 2000).
  right. split.
  - eexists. split; [left; reflexivity | reflexivity].
  - intros c Hc. vm_compute in Hc. injection Hc as <-. discriminate.
Defined.

Lemma callNext_counters_after (counterId : Z) (v : option string)
    (cs : list Counter.t) (c : Counter.t) :
  find (fun c => Counter.id c =? counterId) cs = Some c ->
  let cs' := map (fun counter => if Counter.id counter =? counterId
                                 then setCurrentlyServing v counter else counter) cs in
  find (fun c => Counter.id c =? counterId) cs' = Some (setCurrentlyServing v c)
  /\ forall c', In c' cs' -> Counter.id c' = counterId -> Counter.currentlyServing c' = v.
Proof.
  intros Hc cs'. split.
  - pose proof (find_some _ _ Hc) as [_ Hid].
    unfold cs'. erewrite find_map_same_key; [|intros y|exact Hc].
    + now rewrite Hid.
    + destruct (Counter.id y =? counterId) eqn:E; simpl; exact E.
  - intros c' Hin Hid. unfold cs' in Hin. apply in_map_iff in Hin.
    destruct Hin as [c0 [<- _]].
    destruct (Counter.id c0 =? counterId) eqn:E; [reflexivity|].
    apply Z.eqb_neq in E. contradiction.
Qed.

(** C3. With a waiting ticket for the service and an active counter,
    [callNext] picks the waiting ticket of that service that has the highest
    priority and, within that priority, the earliest timestamp; it returns
    that ticket; in the new state the ticket, at its place in the queue, is
    serving, assigned to the counter and stamped with the call instant, and
    the counter shows the ticket's number. *)
Theorem callNext_serves_first (st : State) (counterId : Z) (serviceType : string)
    (now : Z) (c : Counter.t) :
  (exists t, In t (queue st) /\ isWaitingFor serviceType t = true) ->
  counterWithId st counterId = Some c -> Counter.status c = active ->
  exists next,
    fst (callNext st counterId serviceType now) = Some next
    /\ In next (queue st)
    /\ QueueTicket.serviceType next = serviceType
    /\ QueueTicket.status next = waiting
    /\ (forall t, In t (queue st) -> isWaitingFor serviceType t = true ->
                  servedBefore next t)
    /\ (let st' := snd (callNext st counterId serviceType now) in
        (forall i, nth_error (queue st) i = Some next ->
           exists next',
             nth_error (queue st') i = Some next'
             /\ QueueTicket.status next' = serving
             /\ QueueTicket.counterAssigned next' = Some counterId
             /\ QueueTicket.calledAt next' = Some now
             /\ QueueTicket.id next' = QueueTicket.id next
             /\ QueueTicket.number next' = QueueTicket.number next)
        /\ (exists c', counterWithId st' counterId = Some c'
                       /\ Counter.currentlyServing c' = Some (QueueTicket.number next))
        /\ (forall c', In c' (counters st') -> Counter.id c' = counterId ->
              Counter.currentlyServing c' = Some (QueueTicket.number next))).
Proof.
  intros Hex Hc Ha.
  destruct (callNext_success st counterId serviceType now c Hex Hc Ha)
    as [next [Hnext Hcall]].
  exists next. rewrite Hcall. simpl.
  destruct (first_candidate _ _ Hnext) as [Hin Hbest].
  apply filter_In in Hin. destruct Hin as [Hin Hw].
  unfold isWaitingFor in Hw. apply andb_prop in Hw. destruct Hw as [Hsvc Hst].
  apply String.eqb_eq in Hsvc. apply status_eqb_eq in Hst.
  repeat split; try assumption.
  - intros t Ht Htw. apply Hbest. apply filter_In. split; assumption.
  - intros i Hi. exists (callTicket counterId now next).
    repeat split; try reflexivity.
    rewrite nth_error_map, Hi. simpl. now rewrite String.eqb_refl.
  - destruct (callNext_counters_after counterId (Some (QueueTicket.number next))
                (counters st) c Hc) as [Hfind _].
    eexists. split; [exact Hfind | reflexivity].
  - apply (callNext_counters_after counterId (Some (QueueTicket.number next))
             (counters st) c Hc).
Qed.

Lemma callNext_serves_first_witness :
  exists next,
    fst (callNext aliceThenBob 1 "general" 2000) = Some next
    /\ QueueTicket.number next = "A002".
Proof.
  destruct (callNext_serves_first aliceThenBob 1 "general" 2000
              (Counter.mk 1 "Counter 1" active None None))
    as [next [Hret _]].
  - eexists. split; [left; reflexivity | reflexivity].
  - reflexivity.
  - reflexivity.
  - exists next. split; [exact Hret|].
    vm_compute in Hret. injection Hret as <-. reflexivity.
Defined.

(** C10. [callNext] never reads the service a counter is assigned to, nor
    the ticket it is serving: whatever those two fields hold, for the
    counter named and for any other, an active counter and a waiting ticket
    make the call succeed with the same ticket and the same queue; the
    ticket, waiting for the service before the call, is after it serving at
    its place in the queue, assigned to the counter and stamped with the
    call instant; and the counter's previous [currentlyServing] is replaced
    by the new ticket's number while its [serviceType] stays as it was. *)
Theorem callNext_ignores_counter_assignment (st : State) (counterId : Z)
    (serviceType : string) (now : Z) (c : Counter.t)
    (cur svc : Counter.t -> option string) :
  (exists t, In t (queue st) /\ isWaitingFor serviceType t = true) ->
  counterWithId st counterId = Some c -> Counter.status c = active ->
  let st2 := reassignCounters cur svc st in
  exists next,
    fst (callNext st counterId serviceType now) = Some next
    /\ fst (callNext st2 counterId serviceType now) = Some next
    /\ queue (snd (callNext st2 counterId serviceType now))
       = queue (snd (callNext st counterId serviceType now))
    /\ In next (queue st2)
    /\ QueueTicket.serviceType next = serviceType
    /\ QueueTicket.status next = waiting
    /\ (forall i, nth_error (queue st2) i = Some next ->
          exists next',
            nth_error (queue (snd (callNext st2 counterId serviceType now))) i = Some next'
            /\ QueueTicket.status next' = serving
            /\ QueueTicket.counterAssigned next' = Some counterId
            /\ QueueTicket.calledAt next' = Some now
            /\ QueueTicket.id next' = QueueTicket.id next
            /\ QueueTicket.number next' = QueueTicket.number next
            /\ QueueTicket.serviceType next' = QueueTicket.serviceType next)
    /\ counterWithId (snd (callNext st2 counterId serviceType now)) counterId
       = Some (Counter.mk (Counter.id c) (Counter.name c) active
                 (Some (QueueTicket.number next)) (svc c)).
Proof.
  intros Hex Hc Ha st2.
  destruct (callNext_success st counterId serviceType now c Hex Hc Ha)
    as [next [Hnext Hcall]].
  set (c2 := Counter.mk (Counter.id c) (Counter.name c) (Counter.status c) (cur c) (svc c)).
  assert (Hc2 : counterWithId st2 counterId = Some c2).
  { unfold counterWithId, st2, reassignCounters. simpl.
    exact (find_map_same_key (fun c => Counter.id c =? counterId)
             (fun c => Counter.mk (Counter.id c) (Counter.name c) (Counter.status c)
                         (cur c) (svc c))
             (counters st) c (fun y => eq_refl) Hc). }
  destruct (callNext_success st2 counterId serviceType now c2 Hex Hc2 Ha)
    as [next2 [Hnext2 Hcall2]].
  change (queue st2) with (queue st) in Hnext2 |- *.
  rewrite Hnext in Hnext2. injection Hnext2 as <-.
  destruct (first_candidate _ _ Hnext) as [Hin _].
  apply filter_In in Hin. destruct Hin as [Hin Hw].
  unfold isWaitingFor in Hw. apply andb_prop in Hw. destruct Hw as [Hsvc Hst].
  apply String.eqb_eq in Hsvc. apply status_eqb_eq in Hst.
  exists next. rewrite Hcall, Hcall2. cbn [fst snd queue].
  split; [reflexivity|]. split; [reflexivity|]. split; [reflexivity|].
  split; [exact Hin|]. split; [exact Hsvc|]. split; [exact Hst|]. split.
  - intros i Hi. rewrite nth_error_map.
    change (queue st2) with (queue st). rewrite Hi. cbn [option_map].
    rewrite String.eqb_refl. eexists. split; [reflexivity|].
    repeat split.
  - destruct (callNext_counters_after counterId (Some (QueueTicket.number next))
                (counters st2) c2 Hc2) as [Hfind _].
    unfold counterWithId. simpl. simpl in Hfind. rewrite Hfind.
    unfold setCurrentlyServing, c2. simpl. now rewrite Ha.
Qed.

Lemma callNext_ignores_counter_assignment_witness :
  exists next',
    nth_error
      (queue (snd (callNext
                     (reassignCounters (fun _ => Some "D007") (fun _ => Some "facility")
                        aliceThenBob)
                     1 "general" 2000))) 0 = Some next'
    /\ QueueTicket.number next' = "A002"
    /\ QueueTicket.status next' = serving
    /\ QueueTicket.counterAssigned next' = Some 1
    /\ QueueTicket.calledAt next' = Some 2000.
Proof.
  destruct (callNext_ignores_counter_assignment aliceThenBob 1 "general" 2000
              (Counter.mk 1 "Counter 1" active None None)
              (fun _ => Some "D007") (fun _ => Some "facility"))
    as [next [Hret [_ [_ [_ [_ [_ [Hidx _]]]]]]]].
  - eexists. split; [left; reflexivity | reflexivity].
  - reflexivity.
  - reflexivity.
  - vm_compute in Hret. injection Hret as <-.
    destruct (Hidx 0%nat eq_refl) as [next' [Hn [Hs [Hc [Ht [_ [Hnum _]]]]]]].
    exists next'. repeat split; assumption.
Defined.

(** ** [completeService] *)

(** What the code does, branch by branch. *)
Lemma completeService_noop (st : State) (ticketId : string) (notes : option string)
    (now : Z) :
  (forall t, find (fun t => (QueueTicket.id t =? ticketId)%string) (queue st) = Some t ->
             QueueTicket.status t <> serving) ->
  completeService st ticketId notes now = st.
Proof.
  intros H. unfold completeService.
  destruct (find _ (queue st)) as [t|]; [|reflexivity].
  specialize (H t eq_refl).
  destruct (QueueTicket.status t); simpl; try reflexivity. contradiction.
Qed.

Lemma completeService_serving (st : State) (ticketId : string) (notes : option string)
    (now : Z) (ticket : QueueTicket.t) :
  find (fun t => (QueueTicket.id t =? ticketId)%string) (queue st) = Some ticket ->
  QueueTicket.status ticket = serving ->
  let st' := completeService st ticketId notes now in
  queue st' = map (fun t => if (QueueTicket.id t =? ticketId)%string
                            then completeTicket now notes t else t) (queue st)
  /\ match QueueTicket.counterAssigned ticket with
     | Some c =>
         if c =? 0 then counters st' = counters st /\ services st' = services st
         else
           counters st' = map (fun counter => if Counter.id counter =? c
                                              then setCurrentlyServing None counter
                                              else counter) (counters st)
           /\ services st' =
                map (fun service =>
                       if (ServiceType.id service =? QueueTicket.serviceType ticket)%string
                       then incrServed service else service) (services st)
     | None => counters st' = counters st /\ services st' = services st
     end.
Proof.
  intros Hf Hs. unfold completeService. rewrite Hf, Hs. simpl.
  destruct (QueueTicket.counterAssigned ticket) as [c|]; simpl.
  - destruct (c =? 0); simpl; repeat split; reflexivity.
  - repeat split; reflexivity.
Qed.

(** C4, at a counter whose id is 0.  [callNext] assigns the ticket to
    counter 0 like to any other counter; [completeService] then completes
    the ticket but, its test of [counterAssigned] taking 0 for absent,
    leaves counter 0 showing the ticket and the service's served count
    at 0. *)
Theorem completeService_counter_zero :
  let st := counterZeroServing in
  let st' := completeService st "general-1000" (Some "done") 3000 in
  map (fun t => (QueueTicket.id t, QueueTicket.status t, QueueTicket.counterAssigned t))
    (queue st) = [("general-1000", serving, Some 0)]
  /\ map (fun t => (QueueTicket.id t, QueueTicket.status t, QueueTicket.completedAt t,
                    QueueTicket.notes t))
       (queue st') = [("general-1000", completed, Some 3000, Some "done")]
  /\ counters st' = counters st
  /\ map (fun c => (Counter.id c, Counter.currentlyServing c)) (counters st')
     = [(0, Some "A001"); (1, None)]
  /\ map (fun s => (ServiceType.id s, ServiceType.served s)) (services st')
     = [("general", 0); ("facility", 0)].
Proof. vm_compute. repeat split; reflexivity. Qed.

(** ** Waiting counts *)

Lemma countWaiting_filter (serviceType : string) (q : list QueueTicket.t) :
  Z.of_nat (List.length (filter (isWaitingFor serviceType) q)) = countWaiting serviceType q.
Proof.
  induction q as [|t q IH]; [reflexivity|].
  cbn [filter countWaiting]. unfold isWaitingFor at 1.
  destruct (QueueTicket.status t);
    destruct (QueueTicket.serviceType t =? serviceType)%string;
    cbn [status_eqb andb List.length]; lia.
Qed.

Lemma withWaiting_fixed (q : list QueueTicket.t) (s : ServiceType.t) :
  ServiceType.waiting s = ServiceType.waiting (withWaiting q s) -> withWaiting q s = s.
Proof. destruct s. unfold withWaiting. simpl. intros <-. reflexivity. Qed.

Lemma unchanged_services (q : list QueueTicket.t) (l : list ServiceType.t) :
  existsb (fun p => negb (ServiceType.waiting (fst p) =? ServiceType.waiting (snd p)))
    (combine l (map (withWaiting q) l)) = false ->
  map (withWaiting q) l = l.
Proof.
  induction l as [|s l IH]; simpl; [reflexivity|].
  intros H. apply orb_false_elim in H. destruct H as [Hs Hl].
  apply negb_false_iff, Z.eqb_eq in Hs.
  f_equal; [apply withWaiting_fixed, Hs | apply IH, Hl].
Qed.

Lemma recomputeWaiting_eq (st : State) :
  recomputeWaiting st
  = mkState (map (withWaiting (queue st)) (services st)) (counters st) (queue st).
Proof.
  unfold recomputeWaiting.
  destruct (existsb _ _) eqn:E; [reflexivity|].
  rewrite (unchanged_services _ _ E). destruct st; reflexivity.
Qed.

(** C8. [getWaitingCount s] is the number of queue entries of service [s]
    that are waiting; once the recomputation that follows an operation has
    run, every service record carries that number in its [waiting] field,
    and running the recomputation again changes nothing. *)
Theorem waiting_count_consistent (st : State) (op : Op) :
  (forall s, getWaitingCount st s = countWaiting s (queue st))
  /\ (forall service, In service (services (step st op)) ->
        ServiceType.waiting service
        = getWaitingCount (step st op) (ServiceType.id service))
  /\ recomputeWaiting (step st op) = step st op.
Proof.
  split; [|split].
  - intros s. apply countWaiting_filter.
  - intros service Hin. unfold step in *. rewrite recomputeWaiting_eq in *.
    simpl in *. apply in_map_iff in Hin. destruct Hin as [s0 [<- _]]. reflexivity.
  - unfold step. rewrite !recomputeWaiting_eq. simpl. f_equal.
    rewrite map_map. apply map_ext. intros s0. reflexivity.
Qed.

Lemma waiting_count_consistent_witness :
  ServiceType.waiting (ServiceType.mk "general" "Pelayanan Umum" "A" 1 0 1)
  = getWaitingCount
      (step initialState (AddToQueue "general" (Some "Alice") None None 1000 1000))
      "general".
Proof.
  apply (proj1 (proj2 (waiting_count_consistent initialState
                         (AddToQueue "general" (Some "Alice") None None 1000 1000)))
           (ServiceType.mk "general" "Pelayanan Umum" "A" 1 0 1)).
  left. reflexivity.
Defined.

(** ** Ticket numbers *)

Lemma padStart_fill (s : string) (target : nat) (c : ascii) :
  JS.padStart s target c = (JS.fill (target - String.length s) c ++ s)%string.
Proof.
  unfold JS.padStart. destruct (Nat.leb target (String.length s)) eqn:E; [|reflexivity].
  apply Nat.leb_le in E. replace (target - String.length s)%nat with O by lia.
  reflexivity.
Qed.

Lemma toString_nonneg (n : Z) :
  0 <= n ->
  exists d, d <> Decimal.Nil /\ JS.toString n = NilZero.string_of_uint d /\ Z.of_uint d = n.
Proof.
  intros Hn. pose proof (DecimalZ.of_to n) as Hof. unfold JS.toString.
  destruct n as [|p|p]; simpl in *; [| |lia].
  - exists (Decimal.D0 Decimal.Nil). repeat split. discriminate.
  - exists (Pos.to_uint p). repeat split; [|exact Hof].
    apply DecimalPos.Unsigned.to_uint_nonnil.
Qed.

Lemma digitsValue_zeros (k : nat) (s : string) (v : Z) :
  digitsValue s = Some v -> digitsValue (JS.fill k "0" ++ s) = Some v.
Proof.
  intros H. induction k as [|k IH]; simpl; [exact H|].
  unfold digitsValue in *. simpl.
  destruct (JS.fill k "0" ++ s)%string as [|a r] eqn:E.
  - discriminate IH.
  - change (NilZero.uint_of_string (String a r))
      with (NilEmpty.uint_of_string (String a r)) in IH.
    destruct (NilEmpty.uint_of_string (String a r)) as [d|]; [|discriminate IH].
    exact IH.
Qed.

Lemma digitsValue_padded (n : Z) :
  0 <= n -> digitsValue (JS.padStart (JS.toString n) 3 "0") = Some n.
Proof.
  intros Hn. destruct (toString_nonneg n Hn) as [d [Hd [Hs Hv]]].
  rewrite padStart_fill. apply digitsValue_zeros.
  rewrite Hs. unfold digitsValue. rewrite NilZero.usu by exact Hd.
  simpl. now rewrite Hv.
Qed.

Lemma stripPrefix_app (p s : string) : stripPrefix p (p ++ s) = Some s.
Proof.
  induction p as [|a p IH]; simpl; [reflexivity|].
  now rewrite Ascii.eqb_refl.
Qed.

Lemma numericPart_number (prefix : string) (n : Z) :
  0 <= n ->
  numericPart prefix (prefix ++ JS.padStart (JS.toString n) 3 "0") = Some n.
Proof.
  intros Hn. unfold numericPart. rewrite stripPrefix_app. apply digitsValue_padded, Hn.
Qed.

(** Below one thousand the padded number has exactly three characters. *)
Lemma padded_three_digits (n : Z) :
  0 <= n <= 999 -> String.length (JS.padStart (JS.toString n) 3 "0") = 3%nat.
Proof.
  intros Hn.
  assert (H : forallb (fun k => Nat.eqb (String.length
                                          (JS.padStart (JS.toString (Z.of_nat k)) 3 "0")) 3)
                (seq 0 1000) = true) by (vm_compute; reflexivity).
  rewrite forallb_forall in H.
  specialize (H (Z.to_nat n)). rewrite Z2Nat.id in H by lia.
  apply Nat.eqb_eq, H. apply in_seq. lia.
Qed.

Lemma addToQueue_unknown (st : State) (serviceType : string)
    (customerName purpose : option string) (priority : option Priority) (nowId nowTs : Z) :
  find (fun s => (ServiceType.id s =? serviceType)%string) (services st) = None ->
  addToQueue st serviceType customerName purpose priority nowId nowTs = ("", st).
Proof. intros H. unfold addToQueue. now rewrite H. Qed.

Lemma addToQueue_returns (st : State) (serviceType : string)
    (customerName purpose : option string) (priority : option Priority) (nowId nowTs : Z)
    (service : ServiceType.t) :
  find (fun s => (ServiceType.id s =? serviceType)%string) (services st) = Some service ->
  fst (addToQueue st serviceType customerName purpose priority nowId nowTs)
  = (ServiceType.prefix service
     ++ JS.padStart (JS.toString (ServiceType.currentNumber service + 1)) 3 "0")%string.
Proof. intros H. unfold addToQueue. now rewrite H. Qed.

(** How one [addToQueue] call, with the recomputation after it, changes the
    record of a known service. *)
Lemma step_add_service (st : State) (sid : string) (s : ServiceType.t)
    (serviceType : string) (customerName purpose : option string)
    (priority : option Priority) (nowId nowTs : Z) :
  find (fun x => (ServiceType.id x =? sid)%string) (services st) = Some s ->
  exists s1,
    find (fun x => (ServiceType.id x =? sid)%string)
      (services (step st (AddToQueue serviceType customerName purpose priority nowId nowTs)))
    = Some s1
    /\ ServiceType.prefix s1 = ServiceType.prefix s
    /\ ServiceType.currentNumber s1
       = if (serviceType =? sid)%string then ServiceType.currentNumber s + 1
         else ServiceType.currentNumber s.
Proof.
  intros Hs. unfold step. rewrite recomputeWaiting_eq. cbn [services apply].
  set (q := queue _).
  assert (Hgoal : exists s2,
             find (fun x => (ServiceType.id x =? sid)%string)
               (services (snd (addToQueue st serviceType customerName purpose priority
                                 nowId nowTs))) = Some s2
             /\ ServiceType.prefix s2 = ServiceType.prefix s
             /\ ServiceType.currentNumber s2
                = if (serviceType =? sid)%string then ServiceType.currentNumber s + 1
                  else ServiceType.currentNumber s).
  { unfold addToQueue.
    destruct (String.eqb_spec serviceType sid) as [->|Hne].
    - rewrite Hs. cbn [snd services]. eexists. split.
      + apply (find_map_same_key _ _ _ s); [intros y|exact Hs].
        destruct (ServiceType.id y =? sid)%string eqn:E; simpl; exact E.
      + destruct (find_some _ _ Hs) as [_ Hid]. simpl in Hid. rewrite Hid.
        split; reflexivity.
    - destruct (find (fun x => (ServiceType.id x =? serviceType)%string) (services st))
        as [service|]; cbn [snd services].
      + eexists. split.
        * apply (find_map_same_key _ _ _ s); [intros y|exact Hs].
          destruct (ServiceType.id y =? serviceType)%string; reflexivity.
        * destruct (find_some _ _ Hs) as [_ Hid]. apply String.eqb_eq in Hid.
          rewrite Hid.
          destruct (String.eqb_spec sid serviceType) as [Heq|_]; [congruence|].
          split; reflexivity.
      + exists s. repeat split. exact Hs. }
  destruct Hgoal as [s2 [Hf [Hp Hc]]].
  exists (withWaiting q s2). split; [|split; [exact Hp | exact Hc]].
  apply (find_map_same_key (fun x => (ServiceType.id x =? sid)%string)); [|exact Hf].
  intros y. reflexivity.
Qed.

Lemma map_seq_shift {B : Type} (g : nat -> B) (n : nat) :
  map g (seq 1 (S n)) = g 1%nat :: map (fun k => g (S k)) (seq 1 n).
Proof. simpl. f_equal. rewrite <- seq_shift, map_map. reflexivity. Qed.

Lemma issued_numbers (ops : list Op) :
  Forall isAddToQueue ops ->
  forall (st : State) (sid : string) (s : ServiceType.t),
    find (fun x => (ServiceType.id x =? sid)%string) (services st) = Some s ->
    numbersFor sid (issued st ops)
    = map (fun k => (ServiceType.prefix s
                     ++ JS.padStart (JS.toString (ServiceType.currentNumber s + Z.of_nat k))
                          3 "0")%string)
        (seq 1 (callsOn sid ops))
    /\ exists s', find (fun x => (ServiceType.id x =? sid)%string) (services (run st ops))
                  = Some s'
                  /\ ServiceType.prefix s' = ServiceType.prefix s
                  /\ ServiceType.currentNumber s'
                     = ServiceType.currentNumber s + Z.of_nat (callsOn sid ops).
Proof.
  induction 1 as [|op ops Hop Hops IH]; intros st sid s Hs.
  - split; [reflexivity|]. exists s. simpl. repeat split; [exact Hs | lia].
  - destruct op as [serviceType customerName purpose priority nowId nowTs| | | | | |];
      simpl in Hop; try contradiction.
    destruct (step_add_service st sid s serviceType customerName purpose priority
                nowId nowTs Hs) as [s1 [Hs1 [Hp1 Hc1]]].
    destruct (IH _ sid s1 Hs1) as [IHn [s' [Hs' [Hp' Hc']]]].
    unfold numbersFor, callsOn in *. cbn [issued run fold_left app filter fst].
    destruct (String.eqb_spec serviceType sid) as [->|Hne].
    + cbn [map snd List.length]. split.
      * rewrite map_seq_shift. f_equal.
        -- rewrite (addToQueue_returns _ _ _ _ _ _ _ s Hs). reflexivity.
        -- rewrite IHn. apply map_ext. intros k. rewrite Hp1, Hc1.
           do 3 f_equal. lia.
      * exists s'. split; [exact Hs'|]. split; [congruence|]. rewrite Hc', Hc1. lia.
    + split.
      * rewrite IHn. apply map_ext. intros k. now rewrite Hp1, Hc1.
      * exists s'. split; [exact Hs'|]. split; [congruence|]. rewrite Hc', Hc1. lia.
Qed.

(** C7. Along any sequence of [addToQueue] calls, the numbers issued for a
    known service are its prefix followed by its sequence values
    [currentNumber + 1], [currentNumber + 2], ..., each zero-padded to three
    digits; the service's [currentNumber] has advanced by one per call;
    read back, the numeric parts are those strictly increasing values; a
    value up to 999 takes exactly three characters; and a call that names
    no known service returns the empty string and leaves the state, so the
    queue, as it was.  The sequence values stay among the integers on which
    the addition of JavaScript numbers is exact, from the service's
    [currentNumber] to the last value issued. *)
Theorem addToQueue_numbers (st : State) (ops : list Op) (sid : string)
    (s : ServiceType.t) :
  Forall isAddToQueue ops ->
  find (fun x => (ServiceType.id x =? sid)%string) (services st) = Some s ->
  exactInteger (ServiceType.currentNumber s) ->
  exactInteger (ServiceType.currentNumber s + Z.of_nat (callsOn sid ops)) ->
  let c := ServiceType.currentNumber s in
  let n := callsOn sid ops in
  numbersFor sid (issued st ops)
  = map (fun k => (ServiceType.prefix s
                   ++ JS.padStart (JS.toString (c + Z.of_nat k)) 3 "0")%string)
      (seq 1 n)
  /\ (exists s', find (fun x => (ServiceType.id x =? sid)%string) (services (run st ops))
                 = Some s'
                 /\ ServiceType.currentNumber s' = c + Z.of_nat n)
  /\ (0 <= c ->
      map (numericPart (ServiceType.prefix s)) (numbersFor sid (issued st ops))
      = map (fun k => Some (c + Z.of_nat k)) (seq 1 n))
  /\ (forall v, 0 <= v <= 999 ->
        String.length (JS.padStart (JS.toString v) 3 "0") = 3%nat)
  /\ (forall st' unknown customerName purpose priority nowId nowTs,
        find (fun x => (ServiceType.id x =? unknown)%string) (services st') = None ->
        addToQueue st' unknown customerName purpose priority nowId nowTs = ("", st')).
Proof.
  intros Hops Hs _ _ c n.
  destruct (issued_numbers ops Hops st sid s Hs) as [Hn [s' [Hs' [_ Hc']]]].
  split; [exact Hn|]. split; [exists s'; split; assumption|].
  split; [|split].
  - intros Hc. rewrite Hn, map_map. apply map_ext. intros k.
    apply numericPart_number. lia.
  - apply padded_three_digits.
  - intros. now apply addToQueue_unknown.
Qed.

Lemma addToQueue_numbers_witness :
  numbersFor "general"
    (issued initialState
       [AddToQueue "general" (Some "Alice") (Some "renew ID") (Some normal) 1000 1000;
        AddToQueue "facility" None None None 1001 1001;
        AddToQueue "general" (Some "Bob") (Some "complaint") (Some vip) 1005 1005])
  = ["A001"; "A002"].
Proof.
  refine (proj1 (addToQueue_numbers initialState
                   [AddToQueue "general" (Some "Alice") (Some "renew ID") (Some normal)
                      1000 1000;
                    AddToQueue "facility" None None None 1001 1001;
                    AddToQueue "general" (Some "Bob") (Some "complaint") (Some vip)
                      1005 1005]
                   "general" (ServiceType.mk "general" "Pelayanan Umum" "A" 0 0 0)
                   _ _ _ _)).
  - repeat constructor.
  - reflexivity.
  - unfold exactInteger. simpl. lia.
  - unfold exactInteger. simpl. lia.
Defined.

(** ** The Alice and Bob scenario *)

(** C5 as written fails: with Bob's ticket created after Alice's,
    [getAllWaitingTickets] does not put Bob's ticket (A002) before
    Alice's (A001). *)
Lemma bob_not_before_alice_in_getAllWaitingTickets :
  ~ (indexOfNumber "A002" (getAllWaitingTickets aliceThenBob)
     < indexOfNumber "A001" (getAllWaitingTickets aliceThenBob)).
Proof. vm_compute. intros H. discriminate H. Qed.

(** C5, amended.  From the initial state, Alice (normal) and then Bob (vip,
    created strictly later) take a ticket for the general service: Alice is
    issued A001 and Bob A002, two tickets wait for the service,
    [getAllWaitingTickets], which orders by creation time alone, lists Alice
    before Bob, while the queue itself holds Bob before Alice and [callNext]
    serves Bob first. *)
Theorem alice_bob_scenario (idA idB tA tB now : Z) :
  tA < tB ->
  let r1 := addToQueue initialState "general" (Some "Alice") (Some "renew ID")
              (Some normal) idA tA in
  let st1 := recomputeWaiting (snd r1) in
  let r2 := addToQueue st1 "general" (Some "Bob") (Some "complaint") (Some vip) idB tB in
  let st2 := recomputeWaiting (snd r2) in
  fst r1 = "A001" /\ fst r2 = "A002"
  /\ getWaitingCount st2 "general" = 2
  /\ map (fun t => (QueueTicket.customerName t, QueueTicket.number t))
       (getAllWaitingTickets st2)
     = [(Some "Alice", "A001"); (Some "Bob", "A002")]
  /\ map (fun t => (QueueTicket.customerName t, QueueTicket.number t)) (queue st2)
     = [(Some "Bob", "A002"); (Some "Alice", "A001")]
  /\ option_map QueueTicket.number (fst (callNext st2 1 "general" now)) = Some "A002".
Proof.
  intros Hlt r1 st1 r2 st2.
  assert (Hq : queue st2
               = [QueueTicket.mk ("general-" ++ JS.toString idB) "A002" "general" waiting tB
                    None (Some "Bob") (Some "complaint") vip (Some 5) None None None;
                  QueueTicket.mk ("general-" ++ JS.toString idA) "A001" "general" waiting tA
                    None (Some "Alice") (Some "renew ID") normal (Some 0) None None None]).
  { unfold st2. rewrite recomputeWaiting_queue. vm_compute. reflexivity. }
  assert (Hc : counters st2 = initialCounters).
  { unfold st2. rewrite recomputeWaiting_counters. reflexivity. }
  split; [reflexivity|]. split; [reflexivity|].
  split; [unfold getWaitingCount; rewrite Hq; reflexivity|].
  split; [|split; [rewrite Hq; reflexivity|]].
  - unfold getAllWaitingTickets. rewrite Hq.
    cbv [filter QueueTicket.status status_eqb JS.sort JS.insert byTimestamp
           QueueTicket.timestamp negb].
    destruct (Z.leb_spec (tB - tA) 0) as [H|H]; [lia | reflexivity].
  - unfold callNext. rewrite Hq, Hc. vm_compute. reflexivity.
Qed.

Lemma alice_bob_scenario_witness :
  map (fun t => (QueueTicket.customerName t, QueueTicket.number t))
    (getAllWaitingTickets aliceThenBob)
  = [(Some "Alice", "A001"); (Some "Bob", "A002")].
Proof.
  refine (proj1 (proj2 (proj2 (proj2 (alice_bob_scenario 1000 1005 1000 1005 2000 _))))).
  reflexivity.
Defined.

(** ** [getTicketPosition] *)

Lemma findIndex_found {A : Type} (p : A -> bool) (l : list A) :
  0 <= JS.findIndex p l ->
  exists y, nth_error l (Z.to_nat (JS.findIndex p l)) = Some y /\ p y = true.
Proof.
  induction l as [|x l IH]; simpl; [lia|].
  destruct (p x) eqn:Hx; [intros _; exists x; split; [reflexivity | exact Hx]|].
  destruct (Z.ltb_spec (JS.findIndex p l) 0) as [Hneg|Hpos]; [lia|]. intros _.
  destruct (IH Hpos) as [y [Hy Hp]]. exists y. split; [|exact Hp].
  rewrite Z2Nat.inj_add by lia. rewrite Nat.add_comm. exact Hy.
Qed.

Lemma findIndex_cons {A : Type} (p : A -> bool) (x : A) (l : list A) :
  JS.findIndex p (x :: l)
  = if p x then 0
    else if JS.findIndex p l <? 0 then -1 else JS.findIndex p l + 1.
Proof. reflexivity. Qed.

Lemma filter_none {A : Type} (p : A -> bool) (l : list A) :
  (forall x, In x l -> p x = false) -> filter p l = [].
Proof.
  induction l as [|x l IH]; simpl; intros H; [reflexivity|].
  rewrite (H x) by now left. apply IH. intros y Hy. apply H. now right.
Qed.

Lemma filter_filter {A : Type} (p q : A -> bool) (l : list A) :
  filter p (filter q l) = filter (fun x => q x && p x) l.
Proof.
  induction l as [|x l IH]; simpl; [reflexivity|].
  destruct (q x); simpl; [destruct (p x)|]; now rewrite IH.
Qed.

Lemma filter_length_perm {A : Type} (p : A -> bool) (l l' : list A) :
  Permutation l l' -> List.length (filter p l) = List.length (filter p l').
Proof.
  induction 1 as [|x l l' _ IH|x y l|l l' l'' _ IH1 _ IH2]; simpl.
  - reflexivity.
  - destruct (p x); simpl; now rewrite IH.
  - destruct (p x), (p y); reflexivity.
  - now rewrite IH1.
Qed.

Lemma byTimestamp_sorted (l : list QueueTicket.t) :
  StronglySorted (fun a b => QueueTicket.timestamp a <= QueueTicket.timestamp b)
    (JS.sort byTimestamp l).
Proof.
  eapply StronglySorted_weaken;
    [|apply (sort_sorted byTimestamp (fun _ => True))].
  - intros x y _ _. unfold byTimestamp. lia.
  - intros x y _ _. unfold byTimestamp. lia.
  - intros x y z _ _ _. unfold byTimestamp. lia.
  - apply Forall_forall. intros; exact I.
Qed.

Section Position.
Variable isT : QueueTicket.t -> bool.
Variable t : QueueTicket.t.
Hypothesis isT_t : isT t = true.

Let le (a b : QueueTicket.t) := QueueTicket.timestamp a <= QueueTicket.timestamp b.
Let earlier (x : QueueTicket.t) := QueueTicket.timestamp x <? QueueTicket.timestamp t.
Let notLater (x : QueueTicket.t) := QueueTicket.timestamp x <=? QueueTicket.timestamp t.

(** The sought ticket, inserted in a sorted sequence that has no match,
    lands after the tickets created strictly earlier. *)
Lemma findIndex_insert_target (s : list QueueTicket.t) :
  StronglySorted le s -> Forall (fun y => isT y = false) s ->
  JS.findIndex isT (JS.insert byTimestamp t s)
  = Z.of_nat (List.length (filter earlier s)).
Proof.
  induction 1 as [|y s Hs IH Hy]; intros Hno; cbn [JS.insert JS.findIndex].
  - rewrite isT_t. reflexivity.
  - inversion Hno as [|? ? Hny Hno']; subst. unfold byTimestamp at 1.
    destruct (Z.leb_spec (QueueTicket.timestamp t - QueueTicket.timestamp y) 0) as [H|H].
    + cbn [JS.findIndex]. rewrite isT_t.
      rewrite filter_none; [reflexivity|].
      intros x [<-|Hx]; unfold earlier; apply Z.ltb_ge; [lia|].
      rewrite Forall_forall in Hy. specialize (Hy x Hx). unfold le in Hy. lia.
    + cbn [JS.findIndex filter]. rewrite (IH Hno'), Hny.
      replace (earlier y) with true by (symmetry; apply Z.ltb_lt; lia).
      cbn [List.length].
      destruct (Z.ltb_spec (Z.of_nat (List.length (filter earlier s))) 0); lia.
Qed.

(** Another ticket, inserted in a sorted sequence that holds the sought
    one, pushes it one place back exactly when it was not created later. *)
Lemma findIndex_insert_other (x : QueueTicket.t) (s : list QueueTicket.t) :
  StronglySorted le s -> isT x = false ->
  (forall y, In y s -> isT y = true -> QueueTicket.timestamp y = QueueTicket.timestamp t) ->
  0 <= JS.findIndex isT s ->
  JS.findIndex isT (JS.insert byTimestamp x s)
  = JS.findIndex isT s + (if notLater x then 1 else 0).
Proof.
  intros Hs Hx. induction Hs as [|y s Hs IH Hy]; intros Hts Hfound.
  - simpl in Hfound. lia.
  - cbn [JS.insert]. unfold byTimestamp at 1.
    destruct (Z.leb_spec (QueueTicket.timestamp x - QueueTicket.timestamp y) 0) as [H|H].
    + assert (Hle : notLater x = true).
      { destruct (findIndex_found isT (y :: s) Hfound) as [z [Hz Hpz]].
        apply nth_error_In in Hz. pose proof (Hts z Hz Hpz) as Htz.
        unfold notLater. apply Z.leb_le. destruct Hz as [<-|Hz]; [lia|].
        rewrite Forall_forall in Hy. specialize (Hy z Hz). unfold le in Hy. lia. }
      rewrite Hle, (findIndex_cons isT x), Hx.
      destruct (Z.ltb_spec (JS.findIndex isT (y :: s)) 0); lia.
    + cbn [JS.findIndex] in Hfound |- *. destruct (isT y) eqn:Hy'.
      * assert (Hle : notLater x = false).
        { unfold notLater. apply Z.leb_gt.
          rewrite <- (Hts y (or_introl eq_refl) Hy'). lia. }
        rewrite Hle. reflexivity.
      * destruct (Z.ltb_spec (JS.findIndex isT s) 0) as [Hneg|Hpos]; [lia|].
        rewrite IH; [|intros z Hz; apply Hts; now right|exact Hpos].
        destruct (notLater x).
        -- destruct (Z.ltb_spec (JS.findIndex isT s + 1) 0); lia.
        -- destruct (Z.ltb_spec (JS.findIndex isT s + 0) 0); lia.
Qed.

(** The index of the sought ticket after sorting by timestamp. *)
Lemma findIndex_sorted (l1 l2 : list QueueTicket.t) :
  Forall (fun y => isT y = false) l1 -> Forall (fun y => isT y = false) l2 ->
  JS.findIndex isT (JS.sort byTimestamp (l1 ++ t :: l2))
  = Z.of_nat (List.length (filter notLater l1))
    + Z.of_nat (List.length (filter earlier l2)).
Proof.
  intros H1 H2. induction H1 as [|x l1 Hx H1 IH]; cbn [app JS.sort].
  - rewrite findIndex_insert_target.
    + rewrite (filter_length_perm _ _ _ (sort_perm byTimestamp l2)). reflexivity.
    + apply byTimestamp_sorted.
    + rewrite Forall_forall in H2 |- *. intros y Hy. apply H2.
      apply (proj1 (sort_In byTimestamp l2 y)), Hy.
  - rewrite findIndex_insert_other.
    + rewrite IH. cbn [filter]. destruct (notLater x); cbn [List.length]; lia.
    + apply byTimestamp_sorted.
    + exact Hx.
    + intros y Hy Hpy. apply (proj1 (sort_In byTimestamp _ y)) in Hy.
      apply in_app_or in Hy. rewrite Forall_forall in H1, H2.
      destruct Hy as [Hy|[<-|Hy]]; [|reflexivity|].
      * rewrite (H1 y Hy) in Hpy. discriminate.
      * rewrite (H2 y Hy) in Hpy. discriminate.
    + rewrite IH. lia.
Qed.
End Position.

Lemma find_app_first {A : Type} (p : A -> bool) (l1 l2 : list A) (t : A) :
  Forall (fun x => p x = false) l1 -> p t = true -> find p (l1 ++ t :: l2) = Some t.
Proof.
  induction 1 as [|x l1 Hx _ IH]; simpl; intros Ht.
  - now rewrite Ht.
  - rewrite Hx. apply IH, Ht.
Qed.

Lemma Forall_filter_keep {A : Type} (P : A -> Prop) (p : A -> bool) (l : list A) :
  Forall P l -> Forall P (filter p l).
Proof.
  rewrite !Forall_forall. intros H x Hx. apply filter_In in Hx. apply H, Hx.
Qed.

(** C9. [getTicketPosition] answers null when no ticket carries the id or
    the ticket that carries it is not waiting; for a waiting ticket (the one
    ticket with that id) it answers the ticket's 1-based rank among the
    waiting tickets of its service ordered by creation timestamp alone:
    priority plays no part, and the ticket stands at that rank in the
    timestamp-sorted sequence of those tickets. *)
Theorem getTicketPosition_rank (st : State) (ticketId : string) :
  ((forall t, getTicketById st ticketId = Some t -> QueueTicket.status t <> waiting) ->
   getTicketPosition st ticketId = None)
  /\ (forall l1 t l2,
        queue st = l1 ++ t :: l2 ->
        QueueTicket.id t = ticketId ->
        QueueTicket.status t = waiting ->
        Forall (fun x => QueueTicket.id x <> ticketId) (l1 ++ l2) ->
        getTicketPosition st ticketId = Some (rankByTimestamp t l1 l2)
        /\ exists sorted,
             Permutation sorted
               (filter (isWaitingFor (QueueTicket.serviceType t)) (queue st))
             /\ StronglySorted
                  (fun a b => QueueTicket.timestamp a <= QueueTicket.timestamp b) sorted
             /\ nth_error sorted (Z.to_nat (rankByTimestamp t l1 l2 - 1)) = Some t).
Proof.
  split.
  - intros H. unfold getTicketPosition. unfold getTicketById in H.
    destruct (find _ (queue st)) as [t|]; [|reflexivity].
    specialize (H t eq_refl).
    destruct (QueueTicket.status t); simpl; try reflexivity. contradiction.
  - intros l1 t l2 Hq Hid Hst Hno.
    set (isT := fun x => (QueueTicket.id x =? ticketId)%string).
    set (svc := QueueTicket.serviceType t).
    assert (HisT : isT t = true) by (apply String.eqb_eq, Hid).
    assert (Hno' : Forall (fun x => isT x = false) (l1 ++ l2)).
    { rewrite Forall_forall in Hno |- *. intros x Hx. apply String.eqb_neq, Hno, Hx. }
    apply Forall_app in Hno'. destruct Hno' as [Hno1 Hno2].
    assert (Hw : isWaitingFor svc t = true).
    { unfold isWaitingFor, svc. now rewrite String.eqb_refl, Hst. }
    assert (HW : filter (isWaitingFor svc) (queue st)
                 = filter (isWaitingFor svc) l1 ++ t :: filter (isWaitingFor svc) l2).
    { rewrite Hq, filter_app. cbn [filter]. now rewrite Hw. }
    assert (Hidx : JS.findIndex isT (JS.sort byTimestamp (filter (isWaitingFor svc) (queue st)))
                   = rankByTimestamp t l1 l2 - 1).
    { rewrite HW, (findIndex_sorted isT t HisT) by (apply Forall_filter_keep; assumption).
      rewrite !filter_filter. unfold rankByTimestamp. fold svc. lia. }
    split.
    + unfold getTicketPosition.
      replace (find _ (queue st)) with (Some t)
        by (symmetry; rewrite Hq; apply (find_app_first isT); assumption).
      rewrite Hst. cbn [status_eqb negb]. fold svc. fold isT. rewrite Hidx.
      f_equal. lia.
    + exists (JS.sort byTimestamp (filter (isWaitingFor svc) (queue st))).
      split; [apply sort_perm|]. split; [apply byTimestamp_sorted|].
      rewrite <- Hidx.
      destruct (findIndex_found isT
                  (JS.sort byTimestamp (filter (isWaitingFor svc) (queue st))))
        as [y [Hy Hpy]].
      { rewrite Hidx. unfold rankByTimestamp. lia. }
      rewrite Hy. f_equal.
      apply nth_error_In in Hy. apply (proj1 (sort_In byTimestamp _ y)) in Hy.
      apply filter_In in Hy. destruct Hy as [Hy _]. rewrite Hq in Hy.
      apply in_app_or in Hy. rewrite Forall_forall in Hno1, Hno2.
      destruct Hy as [Hy|[Hy|Hy]]; [|symmetry; exact Hy|].
      * rewrite (Hno1 y Hy) in Hpy. discriminate.
      * rewrite (Hno2 y Hy) in Hpy. discriminate.
Qed.

Lemma getTicketPosition_rank_witness :
  getTicketPosition aliceThenBob "general-1005" = Some 2.
Proof.
  refine (proj1 (proj2 (getTicketPosition_rank aliceThenBob "general-1005")
                   []
                   (QueueTicket.mk "general-1005" "A002" "general" waiting 1005 None
                      (Some "Bob") (Some "complaint") vip (Some 5) None None None)
                   [QueueTicket.mk "general-1000" "A001" "general" waiting 1000 None
                      (Some "Alice") (Some "renew ID") normal (Some 0) None None None]
                   _ _ _ _)).
  - reflexivity.
  - reflexivity.
  - reflexivity.
  - simpl. repeat constructor. discriminate.
Defined.

(** ** Ticket life cycle *)

(** C6 as written fails: [updateTicket] with a status in its patch takes a
    completed ticket back to waiting. *)
Lemma updateTicket_moves_status_back :
  let st' := step aliceServed (UpdateTicket "general-1000" (setStatusPatch waiting)) in
  map (fun t => (QueueTicket.id t, QueueTicket.status t)) (queue aliceServed)
  = [("general-1000", completed)]
  /\ map (fun t => (QueueTicket.id t, QueueTicket.status t)) (queue st')
     = [("general-1000", waiting)]
  /\ ~ forward completed waiting.
Proof.
  split; [reflexivity|]. split; [reflexivity|].
  intros [H|[[H _]|[H _]]]; discriminate H.
Qed.

Lemma forward_refl (s : TicketStatus) : forward s s.
Proof. left. reflexivity. Qed.

Lemma unique_by_id (q : list QueueTicket.t) (a b : QueueTicket.t) :
  NoDup (map QueueTicket.id q) -> In a q -> In b q ->
  QueueTicket.id a = QueueTicket.id b -> a = b.
Proof.
  induction q as [|x q IH]; simpl; intros Hnd Ha Hb Hid; [contradiction|].
  inversion Hnd as [|? ? Hx Hnd']; subst.
  destruct Ha as [<-|Ha], Hb as [<-|Hb].
  - reflexivity.
  - exfalso. apply Hx. rewrite Hid. apply in_map, Hb.
  - exfalso. apply Hx. rewrite <- Hid. apply in_map, Ha.
  - apply IH; assumption.
Qed.

(** An in-place update of the queue that keeps ids and moves each status
    forward. *)
Lemma map_forward (f : QueueTicket.t -> QueueTicket.t) (q : list QueueTicket.t)
    (t t' : QueueTicket.t) :
  (forall x, QueueTicket.id (f x) = QueueTicket.id x) ->
  (forall x, In x q -> forward (QueueTicket.status x) (QueueTicket.status (f x))) ->
  NoDup (map QueueTicket.id q) ->
  In t q -> In t' (map f q) -> QueueTicket.id t' = QueueTicket.id t ->
  forward (QueueTicket.status t) (QueueTicket.status t')
  /\ NoDup (map QueueTicket.id (map f q)).
Proof.
  intros Hid Hfw Hnd Ht Ht' Heq. split.
  - apply in_map_iff in Ht'. destruct Ht' as [x [<- Hx]].
    rewrite Hid in Heq. rewrite (unique_by_id q x t Hnd Hx Ht Heq). apply Hfw, Ht.
  - rewrite map_map. erewrite map_ext; [exact Hnd|]. intros x. apply Hid.
Qed.

Lemma map_ids (f : QueueTicket.t -> QueueTicket.t) (q : list QueueTicket.t) :
  (forall x, QueueTicket.id (f x) = QueueTicket.id x) ->
  map QueueTicket.id (map f q) = map QueueTicket.id q.
Proof. intros Hid. rewrite map_map. apply map_ext, Hid. Qed.

(** The queue [callNext] leaves: untouched, or with the selected waiting
    ticket's id marked as called. *)
Lemma callNext_queue (st : State) (counterId : Z) (serviceType : string) (now : Z) :
  queue (snd (callNext st counterId serviceType now)) = queue st
  \/ exists next,
       In next (queue st) /\ QueueTicket.status next = waiting
       /\ queue (snd (callNext st counterId serviceType now))
          = map (fun ticket =>
                   if (QueueTicket.id ticket =? QueueTicket.id next)%string
                   then callTicket counterId now ticket else ticket) (queue st).
Proof.
  unfold callNext.
  destruct (nth_error _ 0) as [next|] eqn:Hnext; [|left; reflexivity].
  destruct (find _ (counters st)) as [c|]; [|left; reflexivity].
  destruct (negb _); [left; reflexivity|].
  right. exists next. destruct (first_candidate _ _ Hnext) as [Hin _].
  apply filter_In in Hin. destruct Hin as [Hin Hw].
  unfold isWaitingFor in Hw. apply andb_prop in Hw. destruct Hw as [_ Hw].
  apply status_eqb_eq in Hw. repeat split; assumption.
Qed.

Lemma completeService_queue (st : State) (ticketId : string) (notes : option string)
    (now : Z) :
  queue (completeService st ticketId notes now) = queue st
  \/ exists ticket,
       In ticket (queue st) /\ QueueTicket.id ticket = ticketId
       /\ QueueTicket.status ticket = serving
       /\ queue (completeService st ticketId notes now)
          = map (fun t => if (QueueTicket.id t =? ticketId)%string
                          then completeTicket now notes t else t) (queue st).
Proof.
  unfold completeService.
  destruct (find _ (queue st)) as [ticket|] eqn:Hf; [|left; reflexivity].
  destruct (find_some _ _ Hf) as [Hin Hid]. apply String.eqb_eq in Hid.
  destruct (QueueTicket.status ticket) eqn:Hs; simpl; try (left; reflexivity).
  right. exists ticket. repeat split; try assumption.
  destruct (truthy _); reflexivity.
Qed.

Lemma same_queue_forward (q : list QueueTicket.t) (t t' : QueueTicket.t) :
  NoDup (map QueueTicket.id q) -> In t q -> In t' q ->
  QueueTicket.id t' = QueueTicket.id t ->
  forward (QueueTicket.status t) (QueueTicket.status t').
Proof.
  intros Hnd Ht Ht' Hid. rewrite (unique_by_id q t' t Hnd Ht' Ht Hid). apply forward_refl.
Qed.

(** One allowed operation, with the recomputation after it: the ticket
    that carries an id before and after has moved forward or stayed, and ids
    are still unique. *)
Lemma step_life_cycle (st : State) (op : Op) :
  NoDup (map QueueTicket.id (queue st)) -> allowed st op ->
  (forall t t', In t (queue st) -> In t' (queue (step st op)) ->
                QueueTicket.id t' = QueueTicket.id t ->
                forward (QueueTicket.status t) (QueueTicket.status t'))
  /\ NoDup (map QueueTicket.id (queue (step st op))).
Proof.
  intros Hnd Hop. unfold step. rewrite recomputeWaiting_queue.
  destruct op as [serviceType customerName purpose priority nowId nowTs
                 |counterId serviceType now|ticketId notes now|ticketId updates
                 |counterId status|counterId serviceType|]; cbn [apply].
  - (* addToQueue *)
    unfold addToQueue.
    destruct (find _ (services st)) as [service|]; cbn [snd queue].
    + simpl in Hop. split.
      * intros t t' Ht Ht' Hid.
        apply (proj1 (sort_In _ _ _)) in Ht'. apply in_app_or in Ht'.
        destruct Ht' as [Ht'|[<-|[]]]; [now apply (same_queue_forward (queue st))|].
        exfalso. apply Hop.
        replace (newTicketId serviceType nowId) with (QueueTicket.id t)
          by (symmetry; exact Hid).
        apply in_map, Ht.
      * eapply Permutation_NoDup.
        -- apply Permutation_map, Permutation_sym, sort_perm.
        -- rewrite map_app. simpl.
           eapply Permutation_NoDup; [apply Permutation_cons_append|].
           constructor; assumption.
    + split; [|exact Hnd]. intros t t'. apply same_queue_forward, Hnd.
  - (* callNext *)
    destruct (callNext_queue st counterId serviceType now) as [->|[next [Hin [Hw ->]]]].
    + split; [|exact Hnd]. intros t t'. apply same_queue_forward, Hnd.
    + assert (Hid : forall x,
                 QueueTicket.id (if (QueueTicket.id x =? QueueTicket.id next)%string
                                 then callTicket counterId now x else x)
                 = QueueTicket.id x).
      { intros x. destruct (QueueTicket.id x =? QueueTicket.id next)%string; reflexivity. }
      split.
      * intros t t' Ht Ht' Heq.
        refine (proj1 (map_forward _ (queue st) t t' Hid _ Hnd Ht Ht' Heq)).
        intros x Hx. destruct (String.eqb_spec (QueueTicket.id x) (QueueTicket.id next))
          as [E|_]; [|apply forward_refl].
        rewrite (unique_by_id _ x next Hnd Hx Hin E), Hw.
        right. left. split; reflexivity.
      * rewrite (map_ids _ _ Hid). exact Hnd.
  - (* completeService *)
    destruct (completeService_queue st ticketId notes now)
      as [->|[ticket [Hin [Hti [Hs ->]]]]].
    + split; [|exact Hnd]. intros t t'. apply same_queue_forward, Hnd.
    + assert (Hid : forall x,
                 QueueTicket.id (if (QueueTicket.id x =? ticketId)%string
                                 then completeTicket now notes x else x)
                 = QueueTicket.id x).
      { intros x. destruct (QueueTicket.id x =? ticketId)%string; reflexivity. }
      split.
      * intros t t' Ht Ht' Heq.
        refine (proj1 (map_forward _ (queue st) t t' Hid _ Hnd Ht Ht' Heq)).
        intros x Hx. destruct (String.eqb_spec (QueueTicket.id x) ticketId)
          as [E|_]; [|apply forward_refl].
        rewrite <- Hti in E. rewrite (unique_by_id _ x ticket Hnd Hx Hin E), Hs.
        right. right. split; reflexivity.
      * rewrite (map_ids _ _ Hid). exact Hnd.
  - (* updateTicket *)
    simpl in Hop. destruct Hop as [Hst Hpid]. cbn [updateTicket queue].
    assert (Hid : forall x,
               QueueTicket.id (if (QueueTicket.id x =? ticketId)%string
                               then applyPatch x updates else x)
               = QueueTicket.id x).
    { intros x. destruct (QueueTicket.id x =? ticketId)%string; [|reflexivity].
      simpl. now rewrite Hpid. }
    split.
    + intros t t' Ht Ht' Heq.
      refine (proj1 (map_forward _ (queue st) t t' Hid _ Hnd Ht Ht' Heq)).
      intros x _. destruct (QueueTicket.id x =? ticketId)%string; [|apply forward_refl].
      simpl. rewrite Hst. apply forward_refl.
    + rewrite (map_ids _ _ Hid). exact Hnd.
  - (* setCounterStatus *)
    split; [|exact Hnd]. intros t t'. apply same_queue_forward, Hnd.
  - (* setCounterService *)
    split; [|exact Hnd]. intros t t'. apply same_queue_forward, Hnd.
  - (* clearAllData *)
    split; [intros t t' _ []|constructor].
Qed.

Lemma run_app (st : State) (ops ops' : list Op) :
  run st (ops ++ ops') = run (run st ops) ops'.
Proof. unfold run. apply fold_left_app. Qed.

(** C6, amended.  Along any sequence of operations of the public interface
    in which [updateTicket] is given no status and no id to write, and in
    which ticket ids are unique (every [addToQueue] generates an id that is
    not in the queue), no operation moves a ticket's status otherwise than
    forward: the ticket that carries an id before and after an operation
    has its status unchanged, or gone from waiting to serving, or from
    serving to completed. *)
Theorem status_moves_forward (st : State) (before : list Op) (op : Op)
    (t t' : QueueTicket.t) :
  NoDup (map QueueTicket.id (queue st)) ->
  allowedAlong st (before ++ [op]) ->
  In t (queue (run st before)) ->
  In t' (queue (run st (before ++ [op]))) ->
  QueueTicket.id t' = QueueTicket.id t ->
  forward (QueueTicket.status t) (QueueTicket.status t').
Proof.
  revert st. induction before as [|o before IH]; intros st Hnd Hal Ht Ht' Hid.
  - simpl in *. destruct Hal as [Hop _].
    exact (proj1 (step_life_cycle st op Hnd Hop) t t' Ht Ht' Hid).
  - simpl in Hal. destruct Hal as [Ho Hal].
    apply (IH (step st o)); try assumption.
    apply (step_life_cycle st o Hnd Ho).
Qed.

Lemma status_moves_forward_witness : forward serving completed.
Proof.
  refine (status_moves_forward initialState
            [AddToQueue "general" (Some "Alice") None None 1000 1000;
             CallNext 1 "general" 2000]
            (CompleteService "general-1000" None 3000)
            (QueueTicket.mk "general-1000" "A001" "general" serving 1000 (Some 1)
               (Some "Alice") None normal (Some 0) (Some 2000) None None)
            (QueueTicket.mk "general-1000" "A001" "general" completed 1000 (Some 1)
               (Some "Alice") None normal (Some 0) (Some 2000) (Some 3000) None)
            _ _ _ _ _).
  - constructor.
  - simpl. repeat split; try exact I. intros [].
  - left. reflexivity.
  - left. reflexivity.
  - reflexivity.
Defined.

(** * Further properties of the queue state manager *)

(** ** What [addToQueue] adds *)

Lemma addToQueue_known (st : State) (serviceType : string)
    (customerName purpose : option string) (priority : option Priority) (nowId nowTs : Z)
    (service : ServiceType.t) :
  find (fun s => (ServiceType.id s =? serviceType)%string) (services st) = Some service ->
  let number :=
    (ServiceType.prefix service
     ++ JS.padStart (JS.toString (ServiceType.currentNumber service + 1)) 3 "0")%string in
  let newTicket :=
    QueueTicket.mk (newTicketId serviceType nowId) number serviceType waiting nowTs None
      customerName purpose (match priority with Some p => p | None => normal end)
      (Some (getEstimatedWaitTime st serviceType)) None None None in
  addToQueue st serviceType customerName purpose priority nowId nowTs
  = (number,
     mkState
       (map (fun s => if (ServiceType.id s =? serviceType)%string
                      then setCurrentNumber (ServiceType.currentNumber service + 1) s
                      else s) (services st))
       (counters st)
       (JS.sort byPriorityWaiting (queue st ++ [newTicket]))).
Proof. intros H. unfold addToQueue. rewrite H. reflexivity. Qed.

(** X1. A call of [addToQueue] for a known service loses no ticket and adds
    exactly one: the new queue is a rearrangement of the old one and a new
    waiting ticket that carries the returned number, the generated id, the
    caller's data, the default priority when none is given, and as estimate
    the wait computed before the insertion; counters are not touched. *)
Theorem addToQueue_adds_one_ticket (st : State) (serviceType : string)
    (customerName purpose : option string) (priority : option Priority) (nowId nowTs : Z)
    (service : ServiceType.t) :
  find (fun s => (ServiceType.id s =? serviceType)%string) (services st) = Some service ->
  let r := addToQueue st serviceType customerName purpose priority nowId nowTs in
  exists newTicket,
    Permutation (queue (snd r)) (queue st ++ [newTicket])
    /\ QueueTicket.id newTicket = newTicketId serviceType nowId
    /\ QueueTicket.number newTicket = fst r
    /\ QueueTicket.serviceType newTicket = serviceType
    /\ QueueTicket.status newTicket = waiting
    /\ QueueTicket.timestamp newTicket = nowTs
    /\ QueueTicket.customerName newTicket = customerName
    /\ QueueTicket.purpose newTicket = purpose
    /\ QueueTicket.priority newTicket = match priority with Some p => p | None => normal end
    /\ QueueTicket.estimatedWaitTime newTicket = Some (getEstimatedWaitTime st serviceType)
    /\ QueueTicket.counterAssigned newTicket = None
    /\ counters (snd r) = counters st.
Proof.
  intros H r. unfold r. rewrite (addToQueue_known _ _ _ _ _ _ _ _ H). cbn [fst snd queue counters].
  eexists. split; [apply sort_perm|]. repeat split.
Qed.

Lemma addToQueue_adds_one_ticket_witness :
  exists newTicket,
    Permutation
      (queue (snd (addToQueue aliceThenBob "facility" (Some "Carol") None None 1010 1011)))
      (queue aliceThenBob ++ [newTicket])
    /\ QueueTicket.number newTicket = "D001".
Proof.
  destruct (addToQueue_adds_one_ticket aliceThenBob "facility" (Some "Carol") None None
              1010 1011 (ServiceType.mk "facility" "Fasilitas" "D" 0 0 0) eq_refl)
    as [newTicket [Hperm [_ [Hnum _]]]].
  exists newTicket. split; [exact Hperm | exact Hnum].
Defined.

(** X2. After [addToQueue] for a known service, the waiting count of that
    service is one more, the estimated wait five minutes more, and the counts
    of all other services are what they were. *)
Theorem addToQueue_waiting_counts (st : State) (serviceType : string)
    (customerName purpose : option string) (priority : option Priority) (nowId nowTs : Z)
    (service : ServiceType.t) (other : string) :
  find (fun s => (ServiceType.id s =? serviceType)%string) (services st) = Some service ->
  let st' := snd (addToQueue st serviceType customerName purpose priority nowId nowTs) in
  getWaitingCount st' serviceType = getWaitingCount st serviceType + 1
  /\ getEstimatedWaitTime st' serviceType = getEstimatedWaitTime st serviceType + 5
  /\ (other <> serviceType -> getWaitingCount st' other = getWaitingCount st other).
Proof.
  intros H st'.
  assert (Hcount : forall s,
             getWaitingCount st' s
             = getWaitingCount st s + (if (serviceType =? s)%string then 1 else 0)).
  { intros s. unfold st', getWaitingCount.
    rewrite (addToQueue_known _ _ _ _ _ _ _ _ H). cbn [snd queue].
    rewrite (filter_length_perm _ _ _ (sort_perm byPriorityWaiting _)).
    rewrite filter_app, length_app. cbn [filter]. unfold isWaitingFor at 2.
    cbn [QueueTicket.serviceType QueueTicket.status status_eqb].
    destruct (serviceType =? s)%string; cbn [andb List.length]; lia. }
  split; [|split].
  - rewrite Hcount, String.eqb_refl. reflexivity.
  - unfold getEstimatedWaitTime. rewrite Hcount, String.eqb_refl. lia.
  - intros Hne. rewrite Hcount.
    destruct (String.eqb_spec serviceType other) as [E|_]; [congruence | lia].
Qed.

Lemma addToQueue_waiting_counts_witness :
  getWaitingCount
    (snd (addToQueue aliceThenBob "general" (Some "Carol") None None 1010 1011)) "general"
  = 3.
Proof.
  exact (proj1 (addToQueue_waiting_counts aliceThenBob "general" (Some "Carol") None None
                  1010 1011 (ServiceType.mk "general" "Pelayanan Umum" "A" 2 0 2)
                  "facility" eq_refl)).
Defined.

(** ** Looking tickets up by id *)

Lemma find_by_id_perm (q q' : list QueueTicket.t) (ticketId : string) :
  NoDup (map QueueTicket.id q) -> Permutation q q' ->
  find (fun t => (QueueTicket.id t =? ticketId)%string) q'
  = find (fun t => (QueueTicket.id t =? ticketId)%string) q.
Proof.
  intros Hnd Hp.
  destruct (find _ q) as [t|] eqn:Hq.
  - destruct (find_some _ _ Hq) as [Hin Hid]. apply String.eqb_eq in Hid.
    destruct (find _ q') as [t'|] eqn:Hq'.
    + destruct (find_some _ _ Hq') as [Hin' Hid']. apply String.eqb_eq in Hid'.
      f_equal. apply (unique_by_id q); try assumption; [|congruence].
      apply (Permutation_in _ (Permutation_sym Hp)), Hin'.
    + pose proof (find_none _ _ Hq' t (Permutation_in _ Hp Hin)) as Hn.
      simpl in Hn. rewrite Hid, String.eqb_refl in Hn. discriminate.
  - destruct (find _ q') as [t'|] eqn:Hq'; [|reflexivity].
    destruct (find_some _ _ Hq') as [Hin' Hid'].
    pose proof (find_none _ _ Hq t' (Permutation_in _ (Permutation_sym Hp) Hin')) as Hn.
    simpl in Hn, Hid'. rewrite Hid' in Hn. discriminate.
Qed.

Lemma find_app_none {A : Type} (p : A -> bool) (l1 l2 : list A) :
  find p l1 = None -> find p (l1 ++ l2) = find p l2.
Proof.
  induction l1 as [|x l1 IH]; simpl; [reflexivity|].
  destruct (p x); [discriminate | exact IH].
Qed.

Lemma find_app_some {A : Type} (p : A -> bool) (l1 l2 : list A) (x : A) :
  find p l1 = Some x -> find p (l1 ++ l2) = Some x.
Proof.
  induction l1 as [|y l1 IH]; simpl; [discriminate|].
  destruct (p y); [trivial | exact IH].
Qed.

(** X3. With unique ticket ids and a freshly generated id, [getTicketById]
    finds the ticket [addToQueue] has just created under its id, waiting and
    with the returned number, and the re-sort of the queue changes nothing to
    what it answers for any other id. *)
Theorem getTicketById_after_addToQueue (st : State) (serviceType : string)
    (customerName purpose : option string) (priority : option Priority) (nowId nowTs : Z)
    (service : ServiceType.t) :
  NoDup (map QueueTicket.id (queue st)) ->
  ~ In (newTicketId serviceType nowId) (map QueueTicket.id (queue st)) ->
  find (fun s => (ServiceType.id s =? serviceType)%string) (services st) = Some service ->
  let r := addToQueue st serviceType customerName purpose priority nowId nowTs in
  (exists t, getTicketById (snd r) (newTicketId serviceType nowId) = Some t
             /\ QueueTicket.number t = fst r
             /\ QueueTicket.status t = waiting
             /\ QueueTicket.customerName t = customerName)
  /\ (forall ticketId, ticketId <> newTicketId serviceType nowId ->
        getTicketById (snd r) ticketId = getTicketById st ticketId).
Proof.
  intros Hnd Hfresh H r. unfold r, getTicketById.
  rewrite (addToQueue_known _ _ _ _ _ _ _ _ H). cbn [fst snd queue].
  match goal with |- context [JS.sort _ (queue st ++ [?t])] => set (newTicket := t) end.
  assert (Hnd' : NoDup (map QueueTicket.id (queue st ++ [newTicket]))).
  { rewrite map_app. simpl.
    eapply Permutation_NoDup; [apply Permutation_cons_append|].
    constructor; assumption. }
  assert (Hfind : forall ticketId,
             find (fun t => (QueueTicket.id t =? ticketId)%string)
               (JS.sort byPriorityWaiting (queue st ++ [newTicket]))
             = find (fun t => (QueueTicket.id t =? ticketId)%string)
                 (queue st ++ [newTicket])).
  { intros ticketId. apply find_by_id_perm; [exact Hnd'|].
    apply Permutation_sym, sort_perm. }
  split.
  - exists newTicket. rewrite Hfind. split; [|repeat split].
    rewrite find_app_none.
    + simpl. now rewrite String.eqb_refl.
    + destruct (find _ (queue st)) as [t|] eqn:E; [|reflexivity].
      destruct (find_some _ _ E) as [Hin Hid]. apply String.eqb_eq in Hid.
      exfalso. apply Hfresh. rewrite <- Hid. apply in_map, Hin.
  - intros ticketId Hne. rewrite Hfind.
    destruct (find (fun t => (QueueTicket.id t =? ticketId)%string) (queue st))
      as [t|] eqn:E.
    + apply find_app_some, E.
    + rewrite (find_app_none _ _ _ E). simpl.
      destruct (String.eqb_spec (newTicketId serviceType nowId) ticketId) as [Heq|_];
        [congruence | reflexivity].
Qed.

Lemma getTicketById_after_addToQueue_witness :
  exists t,
    getTicketById
      (snd (addToQueue aliceThenBob "facility" (Some "Carol") None None 1010 1011))
      "facility-1010" = Some t
    /\ QueueTicket.number t = "D001".
Proof.
  destruct (getTicketById_after_addToQueue aliceThenBob "facility" (Some "Carol") None None
              1010 1011 (ServiceType.mk "facility" "Fasilitas" "D" 0 0 0))
    as [[t [Hget [Hnum _]]] _].
  - repeat constructor; simpl; intuition discriminate.
  - simpl. intuition discriminate.
  - reflexivity.
  - exists t. split; [exact Hget | exact Hnum].
Defined.

(** ** Generated ids and issued numbers *)

Lemma toString_inj (n m : Z) : JS.toString n = JS.toString m -> n = m.
Proof.
  unfold JS.toString. intros H.
  assert (Hok : forall z, Z.to_int z <> Decimal.Pos Decimal.Nil
                          /\ Z.to_int z <> Decimal.Neg Decimal.Nil).
  { intros [|p|p]; simpl; split; try discriminate; intros E; injection E as E;
      exact (DecimalPos.Unsigned.to_uint_nonnil p E). }
  pose proof (NilZero.isi (Z.to_int n) (proj1 (Hok n)) (proj2 (Hok n))) as Hn.
  pose proof (NilZero.isi (Z.to_int m) (proj1 (Hok m)) (proj2 (Hok m))) as Hm.
  rewrite H, Hm in Hn. injection Hn as Hn.
  rewrite <- (DecimalZ.of_to n), <- (DecimalZ.of_to m). now rewrite Hn.
Qed.

Lemma append_cancel_l (s a b : string) : (s ++ a = s ++ b)%string -> a = b.
Proof. induction s as [|c s IH]; simpl; intros H; [exact H | injection H as H; auto]. Qed.

(** X4. Two tickets requested for one service get the same id exactly when
    the two calls read the same [Date.now ()]: ids of one service are
    distinct as long as the clock readings are, and collide otherwise. *)
Theorem newTicketId_same_service (serviceType : string) (now1 now2 : Z) :
  newTicketId serviceType now1 = newTicketId serviceType now2 <-> now1 = now2.
Proof.
  split; [|intros ->; reflexivity].
  unfold newTicketId. intros H.
  apply append_cancel_l in H. apply (append_cancel_l "-") in H.
  apply toString_inj, H.
Qed.

Lemma newTicketId_same_service_witness : 1000 = 1000.
Proof.
  apply (proj1 (newTicketId_same_service "general" 1000 1000)). reflexivity.
Defined.

Lemma NoDup_map_injective {A B : Type} (f : A -> B) (l : list A) :
  (forall x y, f x = f y -> x = y) -> NoDup l -> NoDup (map f l).
Proof.
  intros Hinj. induction 1 as [|x l Hx _ IH]; simpl; constructor; [|exact IH].
  intros Hin. apply in_map_iff in Hin. destruct Hin as [y [Hy Hin]].
  apply Hinj in Hy. subst y. contradiction.
Qed.

(** X5. The numbers [addToQueue] issues for one service along a sequence
    of calls are pairwise distinct, for a service whose counter is not
    negative, as it is from the initial state on, and as long as the last
    value issued is at most [2 ^ 53], the range in which the addition of
    JavaScript numbers is exact. *)
Theorem issued_numbers_distinct (st : State) (ops : list Op) (sid : string)
    (s : ServiceType.t) :
  Forall isAddToQueue ops ->
  find (fun x => (ServiceType.id x =? sid)%string) (services st) = Some s ->
  0 <= ServiceType.currentNumber s ->
  exactInteger (ServiceType.currentNumber s + Z.of_nat (callsOn sid ops)) ->
  NoDup (numbersFor sid (issued st ops)).
Proof.
  intros Hops Hs Hc _.
  destruct (issued_numbers ops Hops st sid s Hs) as [Hn _]. rewrite Hn.
  apply NoDup_map_injective; [|apply seq_NoDup].
  intros k1 k2 Heq.
  apply (f_equal (numericPart (ServiceType.prefix s))) in Heq.
  rewrite !numericPart_number in Heq by lia.
  injection Heq as Heq. lia.
Qed.

Lemma issued_numbers_distinct_witness :
  NoDup (numbersFor "general"
           (issued initialState
              [AddToQueue "general" (Some "Alice") None None 1000 1000;
               AddToQueue "general" (Some "Bob") None (Some vip) 1005 1005])).
Proof.
  apply (issued_numbers_distinct initialState
           [AddToQueue "general" (Some "Alice") None None 1000 1000;
            AddToQueue "general" (Some "Bob") None (Some vip) 1005 1005]
           "general" (ServiceType.mk "general" "Pelayanan Umum" "A" 0 0 0)).
  - repeat constructor.
  - reflexivity.
  - simpl. lia.
  - unfold exactInteger. simpl. lia.
Defined.

(** ** More on [callNext] *)

(** What a call that returns a ticket has done. *)
Lemma callNext_inv (st : State) (counterId : Z) (serviceType : string) (now : Z)
    (t : QueueTicket.t) :
  fst (callNext st counterId serviceType now) = Some t ->
  In t (queue st)
  /\ isWaitingFor serviceType t = true
  /\ (forall x, In x (queue st) -> isWaitingFor serviceType x = true -> servedBefore t x)
  /\ nth_error (JS.sort byPriority (filter (isWaitingFor serviceType) (queue st))) 0 = Some t
  /\ (exists c, counterWithId st counterId = Some c /\ Counter.status c = active)
  /\ snd (callNext st counterId serviceType now)
     = mkState (services st)
         (map (fun counter =>
                 if Counter.id counter =? counterId
                 then setCurrentlyServing (Some (QueueTicket.number t)) counter
                 else counter) (counters st))
         (map (fun ticket =>
                 if (QueueTicket.id ticket =? QueueTicket.id t)%string
                 then callTicket counterId now ticket else ticket) (queue st)).
Proof.
  unfold callNext, counterWithId.
  destruct (nth_error _ 0) as [next|] eqn:Hnext; [|discriminate].
  destruct (find _ (counters st)) as [c|]; [|discriminate].
  destruct (Counter.status c) eqn:Hc; simpl; [|discriminate].
  intros [= <-]. destruct (first_candidate _ _ Hnext) as [Hin Hbest].
  apply filter_In in Hin. destruct Hin as [Hin Hw].
  repeat split; try assumption.
  - intros x Hx Hxw. apply Hbest, filter_In. split; assumption.
  - exists c. split; [reflexivity | exact Hc].
Qed.

Lemma map_unmatched (f : QueueTicket.t -> QueueTicket.t) (ticketId : string)
    (l : list QueueTicket.t) :
  Forall (fun x => QueueTicket.id x <> ticketId) l ->
  map (fun x => if (QueueTicket.id x =? ticketId)%string then f x else x) l = l.
Proof.
  induction 1 as [|x l Hx _ IH]; simpl; [reflexivity|].
  apply String.eqb_neq in Hx. now rewrite Hx, IH.
Qed.

(** With unique ids, an update by id rewrites one ticket in place. *)
Lemma map_by_id_split (f : QueueTicket.t -> QueueTicket.t) (q : list QueueTicket.t)
    (t : QueueTicket.t) :
  NoDup (map QueueTicket.id q) -> In t q ->
  exists l1 l2,
    q = l1 ++ t :: l2
    /\ Forall (fun x => QueueTicket.id x <> QueueTicket.id t) (l1 ++ l2)
    /\ map (fun x => if (QueueTicket.id x =? QueueTicket.id t)%string then f x else x) q
       = l1 ++ f t :: l2.
Proof.
  intros Hnd Hin. destruct (in_split _ _ Hin) as [l1 [l2 ->]].
  exists l1, l2. split; [reflexivity|].
  assert (Hno : Forall (fun x => QueueTicket.id x <> QueueTicket.id t) (l1 ++ l2)).
  { rewrite map_app in Hnd. simpl in Hnd. apply NoDup_remove_2 in Hnd.
    apply Forall_forall. intros x Hx Heq. apply Hnd. rewrite <- Heq, <- map_app.
    apply in_map, Hx. }
  split; [exact Hno|].
  apply Forall_app in Hno. destruct Hno as [H1 H2].
  rewrite map_app. cbn [map]. rewrite String.eqb_refl.
  now rewrite !map_unmatched by assumption.
Qed.

(** X6. With unique ticket ids, a call of [callNext] that returns a ticket
    lowers the waiting count of the requested service by exactly one and
    leaves the count of every other service as it was. *)
Theorem callNext_waiting_counts (st : State) (counterId : Z) (serviceType : string)
    (now : Z) (t : QueueTicket.t) (other : string) :
  NoDup (map QueueTicket.id (queue st)) ->
  fst (callNext st counterId serviceType now) = Some t ->
  let st' := snd (callNext st counterId serviceType now) in
  getWaitingCount st' serviceType = getWaitingCount st serviceType - 1
  /\ (other <> serviceType -> getWaitingCount st' other = getWaitingCount st other).
Proof.
  intros Hnd Hret st'.
  destruct (callNext_inv _ _ _ _ _ Hret) as [Hin [Hw [_ [_ [_ Hst']]]]].
  destruct (map_by_id_split (callTicket counterId now) _ _ Hnd Hin)
    as [l1 [l2 [Hq [_ Hmap]]]].
  assert (Hcount : forall s,
             getWaitingCount st' s
             = getWaitingCount st s - (if isWaitingFor s t then 1 else 0)).
  { intros s. unfold st', getWaitingCount. rewrite Hst'. cbn [queue].
    rewrite Hmap, Hq, !filter_app. cbn [filter].
    replace (isWaitingFor s (callTicket counterId now t)) with false
      by (unfold isWaitingFor; simpl; now rewrite andb_false_r).
    destruct (isWaitingFor s t); rewrite !length_app; cbn [List.length]; lia. }
  split.
  - rewrite Hcount, Hw. reflexivity.
  - intros Hne. rewrite Hcount.
    replace (isWaitingFor other t) with false; [lia|].
    unfold isWaitingFor in Hw |- *. apply andb_prop in Hw. destruct Hw as [Hs _].
    apply String.eqb_eq in Hs. rewrite Hs.
    destruct (String.eqb_spec serviceType other) as [E|_]; [congruence | reflexivity].
Qed.

Lemma callNext_waiting_counts_witness :
  getWaitingCount (snd (callNext aliceThenBob 1 "general" 2000)) "general" = 1.
Proof.
  refine (proj1 (callNext_waiting_counts aliceThenBob 1 "general" 2000
                   (QueueTicket.mk "general-1005" "A002" "general" waiting 1005 None
                      (Some "Bob") (Some "complaint") vip (Some 5) None None None)
                   "facility" _ _)).
  - repeat constructor; simpl; intuition discriminate.
  - reflexivity.
Defined.

(** X7. [callNext] never hands out a ticket twice: a call made in the
    state a successful call leaves, for whatever counter and service,
    returns a ticket with another id. *)
Theorem callNext_never_repeats (st : State) (counterId counterId' : Z)
    (serviceType serviceType' : string) (now now' : Z) (t t' : QueueTicket.t) :
  fst (callNext st counterId serviceType now) = Some t ->
  fst (callNext (snd (callNext st counterId serviceType now))
         counterId' serviceType' now') = Some t' ->
  QueueTicket.id t' <> QueueTicket.id t.
Proof.
  intros Hret Hret'.
  destruct (callNext_inv _ _ _ _ _ Hret) as [_ [_ [_ [_ [_ Hst']]]]].
  destruct (callNext_inv _ _ _ _ _ Hret') as [Hin' [Hw' _]].
  rewrite Hst' in Hin'. cbn [queue] in Hin'.
  apply in_map_iff in Hin'. destruct Hin' as [x [Hx _]].
  unfold isWaitingFor in Hw'. apply andb_prop in Hw'. destruct Hw' as [_ Hw'].
  apply status_eqb_eq in Hw'.
  destruct (String.eqb_spec (QueueTicket.id x) (QueueTicket.id t)) as [E|E].
  - subst t'. simpl in Hw'. discriminate.
  - subst t'. exact E.
Qed.

Lemma callNext_never_repeats_witness : "general-1000" <> "general-1005".
Proof.
  refine (callNext_never_repeats aliceThenBob 1 2 "general" "general" 2000 2001
            (QueueTicket.mk "general-1005" "A002" "general" waiting 1005 None
               (Some "Bob") (Some "complaint") vip (Some 5) None None None)
            (QueueTicket.mk "general-1000" "A001" "general" waiting 1000 None
               (Some "Alice") (Some "renew ID") normal (Some 0) None None None)
            _ _); reflexivity.
Defined.

Lemma find_unique_id (q : list QueueTicket.t) (t : QueueTicket.t) :
  NoDup (map QueueTicket.id q) -> In t q ->
  find (fun x => (QueueTicket.id x =? QueueTicket.id t)%string) q = Some t.
Proof.
  intros Hnd Hin.
  destruct (find _ q) as [x|] eqn:E.
  - destruct (find_some _ _ E) as [Hx Hid]. apply String.eqb_eq in Hid.
    f_equal. apply (unique_by_id q); assumption.
  - pose proof (find_none _ _ E t Hin) as Hn. simpl in Hn.
    rewrite String.eqb_refl in Hn. discriminate.
Qed.

(** X8. When the waiting tickets of a service all have one priority (and
    ids are unique), the ticket [callNext] returns is the one to which
    [getTicketPosition] gives position 1: the two orders differ only across
    priorities. *)
Theorem callNext_serves_position_one (st : State) (counterId : Z) (serviceType : string)
    (now : Z) (t : QueueTicket.t) :
  NoDup (map QueueTicket.id (queue st)) ->
  onePriority st serviceType ->
  fst (callNext st counterId serviceType now) = Some t ->
  getTicketPosition st (QueueTicket.id t) = Some 1.
Proof.
  intros Hnd Hone Hret.
  destruct (callNext_inv _ _ _ _ _ Hret) as [Hin [Hw [_ [Hhead _]]]].
  pose proof Hw as Hw'. unfold isWaitingFor in Hw'. apply andb_prop in Hw'.
  destruct Hw' as [Hsvc Hst]. apply String.eqb_eq in Hsvc. apply status_eqb_eq in Hst.
  unfold getTicketPosition. rewrite (find_unique_id _ _ Hnd Hin), Hst, Hsvc.
  cbn [status_eqb negb].
  rewrite (sort_ext byPriority byTimestamp) in Hhead.
  - destruct (JS.sort byTimestamp _) as [|h rest]; [discriminate|].
    simpl in Hhead. injection Hhead as ->.
    cbn [JS.findIndex]. now rewrite String.eqb_refl.
  - intros x y Hx Hy. apply filter_In in Hx, Hy.
    unfold byPriority, byTimestamp.
    rewrite (Hone x y (proj1 Hx) (proj1 Hy) (proj2 Hx) (proj2 Hy)), Z.eqb_refl.
    reflexivity.
Qed.

Lemma callNext_serves_position_one_witness :
  fst (callNext severalWaiting 1 "general" 2000)
  = Some (QueueTicket.mk "general-1000" "A001" "general" waiting 1000 None
            (Some "Alice") None normal (Some 0) None None None)
  /\ getTicketPosition severalWaiting "general-1000" = Some 1
  /\ List.length (filter (isWaitingFor "general") (queue severalWaiting)) = 3%nat.
Proof.
  split; [reflexivity|]. split; [|reflexivity].
  refine (callNext_serves_position_one severalWaiting 1 "general" 2000
            (QueueTicket.mk "general-1000" "A001" "general" waiting 1000 None
               (Some "Alice") None normal (Some 0) None None None) _ _ _).
  - repeat constructor; simpl; intuition discriminate.
  - intros a b Ha Hb Hwa Hwb. vm_compute in Ha, Hb.
    destruct Ha as [<-|[<-|[<-|[<-|[]]]]]; try discriminate Hwa;
      destruct Hb as [<-|[<-|[<-|[<-|[]]]]]; try discriminate Hwb; reflexivity.
  - reflexivity.
Defined.

(** ** Counter settings *)

Lemma find_after_setCounterStatus (counterId : Z) (status : CounterStatus)
    (cs : list Counter.t) :
  find (fun c => Counter.id c =? counterId)
    (map (fun counter =>
            if Counter.id counter =? counterId
            then Counter.mk (Counter.id counter) (Counter.name counter) status
                   (Counter.currentlyServing counter) (Counter.serviceType counter)
            else counter) cs)
  = option_map (fun c => Counter.mk (Counter.id c) (Counter.name c) status
                           (Counter.currentlyServing c) (Counter.serviceType c))
      (find (fun c => Counter.id c =? counterId) cs).
Proof.
  induction cs as [|c cs IH]; simpl; [reflexivity|].
  destruct (Counter.id c =? counterId) eqn:E; simpl; rewrite E; [reflexivity | exact IH].
Qed.

(** X9. Once a counter has been set inactive, [callNext] for that counter
    returns null and changes nothing, whatever waits in the queue. *)
Theorem inactive_counter_gets_no_ticket (st : State) (counterId : Z)
    (serviceType : string) (now : Z) :
  callNext (setCounterStatus st counterId inactive) counterId serviceType now
  = (None, setCounterStatus st counterId inactive).
Proof.
  unfold callNext. destruct (nth_error _ 0); [|reflexivity].
  cbn [setCounterStatus counters]. rewrite find_after_setCounterStatus.
  destruct (find _ (counters st)); reflexivity.
Qed.

(** X10. Once an existing counter has been set active, [callNext] for it
    returns a waiting ticket of the requested service as soon as there is
    one, whatever the counter's status was before. *)
Theorem activated_counter_gets_ticket (st : State) (counterId : Z)
    (serviceType : string) (now : Z) (c : Counter.t) :
  counterWithId st counterId = Some c ->
  (exists t, In t (queue st) /\ isWaitingFor serviceType t = true) ->
  exists next,
    fst (callNext (setCounterStatus st counterId active) counterId serviceType now)
    = Some next
    /\ In next (queue st) /\ isWaitingFor serviceType next = true.
Proof.
  intros Hc Hex.
  destruct (callNext_success (setCounterStatus st counterId active) counterId
              serviceType now
              (Counter.mk (Counter.id c) (Counter.name c) active
                 (Counter.currentlyServing c) (Counter.serviceType c)))
    as [next [Hnext Hcall]].
  - exact Hex.
  - unfold counterWithId in *. cbn [setCounterStatus counters].
    rewrite find_after_setCounterStatus, Hc. reflexivity.
  - reflexivity.
  - exists next. rewrite Hcall. split; [reflexivity|].
    destruct (first_candidate _ _ Hnext) as [Hin _]. cbn [setCounterStatus queue] in Hin.
    apply filter_In in Hin. exact Hin.
Qed.

Lemma activated_counter_gets_ticket_witness :
  exists next,
    fst (callNext (setCounterStatus aliceThenBob 3 active) 3 "general" 2000) = Some next
    /\ In next (queue aliceThenBob) /\ isWaitingFor "general" next = true.
Proof.
  apply (activated_counter_gets_ticket aliceThenBob 3 "general" 2000
           (Counter.mk 3 "Counter 3" inactive None None)).
  - reflexivity.
  - eexists. split; [left; reflexivity | reflexivity].
Defined.

Lemma map_no_counter (f : Counter.t -> Counter.t) (counterId : Z) (cs : list Counter.t) :
  Forall (fun c => Counter.id c <> counterId) cs ->
  map (fun c => if Counter.id c =? counterId then f c else c) cs = cs.
Proof.
  induction 1 as [|c cs Hc _ IH]; simpl; [reflexivity|].
  apply Z.eqb_neq in Hc. now rewrite Hc, IH.
Qed.

(** X11. [setCounterStatus] and [setCounterService] with an id that no
    counter carries leave the state exactly as it was. *)
Theorem counter_settings_unknown_id (st : State) (counterId : Z)
    (status : CounterStatus) (serviceType : option string) :
  Forall (fun c => Counter.id c <> counterId) (counters st) ->
  setCounterStatus st counterId status = st
  /\ setCounterService st counterId serviceType = st.
Proof.
  intros H. unfold setCounterStatus, setCounterService.
  rewrite !map_no_counter by exact H. destruct st; split; reflexivity.
Qed.

Lemma counter_settings_unknown_id_witness :
  setCounterStatus initialState 9 active = initialState
  /\ setCounterService initialState 9 (Some "general") = initialState.
Proof.
  apply (counter_settings_unknown_id initialState 9 active (Some "general")).
  repeat constructor; discriminate.
Defined.


(** ** More on [completeService] *)

(** X12. [completeService] is idempotent: called a second time for the same
    ticket, with whatever notes and at whatever instant, it changes nothing
    (the ticket is completed, or was not being served in the first place). *)
Theorem completeService_idempotent (st : State) (ticketId : string)
    (notes notes' : option string) (now now' : Z) :
  completeService (completeService st ticketId notes now) ticketId notes' now'
  = completeService st ticketId notes now.
Proof.
  apply completeService_noop. intros t Ht.
  destruct (find (fun t => (QueueTicket.id t =? ticketId)%string) (queue st))
    as [ticket|] eqn:Hf.
  - destruct (QueueTicket.status ticket) eqn:Hs.
    + rewrite completeService_noop in Ht by (intros t0; rewrite Hf; intros [= <-]; congruence).
      rewrite Hf in Ht. injection Ht as <-. congruence.
    + destruct (completeService_serving st ticketId notes now ticket Hf Hs) as [Hq _].
      rewrite Hq in Ht.
      erewrite find_map_same_key in Ht; [| |exact Hf].
      * injection Ht as <-. destruct (find_some _ _ Hf) as [_ Hid]. simpl in Hid.
        rewrite Hid. simpl. discriminate.
      * intros y. destruct (QueueTicket.id y =? ticketId)%string eqn:E; simpl; exact E.
    + rewrite completeService_noop in Ht by (intros t0; rewrite Hf; intros [= <-]; congruence).
      rewrite Hf in Ht. injection Ht as <-. congruence.
  - rewrite completeService_noop in Ht by (intros t0; rewrite Hf; discriminate).
    rewrite Hf in Ht. discriminate.
Qed.



(** ** What no operation does *)

Lemma Forall2_map_r {A : Type} (R : A -> A -> Prop) (h : A -> A) (l : list A) :
  (forall x, In x l -> R x (h x)) -> Forall2 R l (map h l).
Proof.
  induction l as [|x l IH]; simpl; intros H; constructor.
  - apply H. now left.
  - apply IH. intros y Hy. apply H. now right.
Qed.

Lemma Forall2_same {A : Type} (R : A -> A -> Prop) (l : list A) :
  (forall x, R x x) -> Forall2 R l l.
Proof. intros H. induction l; constructor; auto. Qed.

Lemma serviceAdvanced_refl (s : ServiceType.t) : serviceAdvanced s s.
Proof. unfold serviceAdvanced. repeat split; lia. Qed.

Lemma recomputeWaiting_services (st : State) :
  services (recomputeWaiting st) = map (withWaiting (queue st)) (services st).
Proof. rewrite recomputeWaiting_eq. reflexivity. Qed.

Lemma unique_service (l : list ServiceType.t) (a b : ServiceType.t) :
  NoDup (map ServiceType.id l) -> In a l -> In b l ->
  ServiceType.id a = ServiceType.id b -> a = b.
Proof.
  induction l as [|x l IH]; simpl; intros Hnd Ha Hb Hid; [contradiction|].
  inversion Hnd as [|? ? Hx Hnd']; subst.
  destruct Ha as [<-|Ha], Hb as [<-|Hb].
  - reflexivity.
  - exfalso. apply Hx. rewrite Hid. apply in_map, Hb.
  - exfalso. apply Hx. rewrite <- Hid. apply in_map, Ha.
  - apply IH; assumption.
Qed.

(** The services after an operation other than the reset: the same
    records, position by position, each possibly advanced. *)
Lemma apply_services (st : State) (op : Op) :
  op <> ClearAllData ->
  NoDup (map ServiceType.id (services st)) ->
  exists h, services (apply st op) = map h (services st)
            /\ forall s, In s (services st) -> serviceAdvanced s (h s).
Proof.
  intros Hop Hnd.
  assert (Hsame : forall st', services st' = services st ->
            exists h, services st' = map h (services st)
                      /\ forall s, In s (services st) -> serviceAdvanced s (h s)).
  { intros st' ->. exists (fun s => s). rewrite map_id. split; [reflexivity|].
    intros. apply serviceAdvanced_refl. }
  destruct op as [serviceType customerName purpose priority nowId nowTs
                 |counterId serviceType now|ticketId notes now|ticketId updates
                 |counterId status|counterId serviceType|]; cbn [apply];
    try (apply Hsame; reflexivity); [| | |congruence].
  - (* addToQueue *)
    unfold addToQueue.
    destruct (find _ (services st)) as [service|] eqn:Hf; cbn [snd services];
      [|apply Hsame; reflexivity].
    eexists. split; [reflexivity|].
    intros s Hs. cbv beta.
    destruct (ServiceType.id s =? serviceType)%string eqn:E;
      [|apply serviceAdvanced_refl].
    destruct (find_some _ _ Hf) as [Hin Hid]. simpl in Hid.
    apply String.eqb_eq in E, Hid.
    rewrite (unique_service _ s service Hnd Hs Hin) by congruence.
    unfold serviceAdvanced. simpl. repeat split; lia.
  - (* callNext *)
    apply Hsame. unfold callNext.
    destruct (nth_error _ 0); [|reflexivity].
    destruct (find _ (counters st)); [|reflexivity].
    destruct (negb _); reflexivity.
  - (* completeService *)
    unfold completeService.
    destruct (find _ (queue st)) as [ticket|]; [|apply Hsame; reflexivity].
    destruct (negb _); [apply Hsame; reflexivity|].
    destruct (truthy _); cbn [services]; [|apply Hsame; reflexivity].
    eexists. split; [reflexivity|].
    intros s _. cbv beta.
    destruct (ServiceType.id s =? _)%string; [|apply serviceAdvanced_refl].
    unfold serviceAdvanced. simpl. repeat split; lia.
Qed.

(** X14. No operation other than [clearAllData] adds, removes, renames or
    reorders a service, and none lowers a service's last issued number or
    its served count (service ids being unique). *)
Theorem services_only_advance (st : State) (op : Op) :
  op <> ClearAllData ->
  NoDup (map ServiceType.id (services st)) ->
  Forall2 serviceAdvanced (services st) (services (step st op))
  /\ NoDup (map ServiceType.id (services (step st op))).
Proof.
  intros Hop Hnd.
  destruct (apply_services st op Hop Hnd) as [h [Hh Hadv]].
  unfold step. rewrite recomputeWaiting_services, Hh, map_map.
  split.
  - apply Forall2_map_r. intros s Hs. exact (Hadv s Hs).
  - rewrite map_map. erewrite map_ext_in; [exact Hnd|].
    intros s Hs. destruct (Hadv s Hs) as [Hid _]. exact Hid.
Qed.

Lemma services_only_advance_witness :
  Forall2 serviceAdvanced (services initialState)
    (services (step initialState
                 (AddToQueue "general" (Some "Alice") None None 1000 1000))).
Proof.
  refine (proj1 (services_only_advance initialState
                   (AddToQueue "general" (Some "Alice") None None 1000 1000) _ _)).
  - discriminate.
  - repeat constructor; simpl; intuition discriminate.
Defined.

Lemma sameCounter_map (h : Counter.t -> Counter.t) (counterId : Z) (cs : list Counter.t) :
  (forall c, sameCounter c (h c)) ->
  Forall2 sameCounter cs
    (map (fun c => if Counter.id c =? counterId then h c else c) cs).
Proof.
  intros H. apply Forall2_map_r. intros c _.
  destruct (Counter.id c =? counterId); [apply H | split; reflexivity].
Qed.

Lemma apply_counters (st : State) (op : Op) :
  op <> ClearAllData ->
  Forall2 sameCounter (counters st) (counters (apply st op)).
Proof.
  intros Hop.
  assert (Hsame : Forall2 sameCounter (counters st) (counters st)).
  { apply Forall2_same. intros c. split; reflexivity. }
  destruct op as [serviceType customerName purpose priority nowId nowTs
                 |counterId serviceType now|ticketId notes now|ticketId updates
                 |counterId status|counterId serviceType|]; cbn [apply].
  - unfold addToQueue. destruct (find _ (services st)); exact Hsame.
  - unfold callNext.
    destruct (nth_error _ 0); [|exact Hsame].
    destruct (find _ (counters st)); [|exact Hsame].
    destruct (negb _); [exact Hsame|]. cbn [snd counters].
    apply sameCounter_map. intros c. split; reflexivity.
  - unfold completeService.
    destruct (find _ (queue st)) as [ticket|]; [|exact Hsame].
    destruct (negb _); [exact Hsame|].
    destruct (truthy _); cbn [counters]; [|exact Hsame].
    apply Forall2_map_r. intros c _.
    destruct (match QueueTicket.counterAssigned ticket with
              | Some c0 => Counter.id c =? c0
              | None => false
              end); split; reflexivity.
  - exact Hsame.
  - cbn [setCounterStatus counters]. apply sameCounter_map. intros c. split; reflexivity.
  - cbn [setCounterService counters]. apply sameCounter_map. intros c. split; reflexivity.
  - congruence.
Qed.

(** X15. No operation other than [clearAllData] adds, removes, renames or
    reorders a counter. *)
Theorem counters_keep_identity (st : State) (op : Op) :
  op <> ClearAllData ->
  Forall2 sameCounter (counters st) (counters (step st op)).
Proof.
  intros Hop. unfold step. rewrite recomputeWaiting_counters.
  apply apply_counters, Hop.
Qed.

Lemma counters_keep_identity_witness :
  Forall2 sameCounter (counters aliceThenBob)
    (counters (step aliceThenBob (CallNext 1 "general" 2000))).
Proof.
  apply (counters_keep_identity aliceThenBob (CallNext 1 "general" 2000)).
  discriminate.
Defined.

(** X16. Tickets are never removed from the queue except by
    [clearAllData]: any other operation leaves the queue as long as it was,
    or one longer when it is an [addToQueue] call for a known service. *)
Theorem queue_never_shrinks (st : State) (op : Op) :
  op <> ClearAllData ->
  List.length (queue (step st op)) = (List.length (queue st) + ticketsAdded st op)%nat.
Proof.
  intros Hop. unfold step. rewrite recomputeWaiting_queue.
  destruct op as [serviceType customerName purpose priority nowId nowTs
                 |counterId serviceType now|ticketId notes now|ticketId updates
                 |counterId status|counterId serviceType|]; cbn [apply ticketsAdded].
  - unfold addToQueue. destruct (find _ (services st)); cbn [snd queue]; [|lia].
    rewrite sort_length, length_app. reflexivity.
  - destruct (callNext_queue st counterId serviceType now) as [->|[next [_ [_ ->]]]];
      [|rewrite length_map]; lia.
  - destruct (completeService_queue st ticketId notes now) as [->|[t [_ [_ [_ ->]]]]];
      [|rewrite length_map]; lia.
  - cbn [updateTicket queue]. rewrite length_map. lia.
  - cbn [setCounterStatus queue]. lia.
  - cbn [setCounterService queue]. lia.
  - congruence.
Qed.

Lemma queue_never_shrinks_witness :
  List.length (queue (step aliceThenBob (CompleteService "general-1000" None 3000))) = 2%nat.
Proof.
  apply (queue_never_shrinks aliceThenBob (CompleteService "general-1000" None 3000)).
  discriminate.
Defined.

Lemma step_keeps_ids (st : State) (op : Op) :
  NoDup (map QueueTicket.id (queue st)) -> keepsIds st op ->
  NoDup (map QueueTicket.id (queue (step st op))).
Proof.
  intros Hnd Hop.
  destruct op as [serviceType customerName purpose priority nowId nowTs
                 |counterId serviceType now|ticketId notes now|ticketId updates
                 |counterId status|counterId serviceType|];
    try (match goal with
         | |- context [step st ?o] => exact (proj2 (step_life_cycle st o Hnd Hop))
         end).
  unfold step. rewrite recomputeWaiting_queue. cbn [apply updateTicket queue].
  simpl in Hop. rewrite map_ids; [exact Hnd|].
  intros x. destruct (QueueTicket.id x =? ticketId)%string; [|reflexivity].
  simpl. now rewrite Hop.
Qed.

(** X17. Ticket ids stay unique along any sequence of operations in which
    every [addToQueue] call generates an id that is not in the queue and no
    [updateTicket] call overwrites an id, whatever else it writes. *)
Theorem ticket_ids_stay_unique (st : State) (ops : list Op) :
  NoDup (map QueueTicket.id (queue st)) ->
  keepsIdsAlong st ops ->
  NoDup (map QueueTicket.id (queue (run st ops))).
Proof.
  revert st. induction ops as [|op ops IH]; intros st Hnd Hal; [exact Hnd|].
  simpl in Hal. destruct Hal as [Hop Hal]. simpl.
  apply IH; [|exact Hal]. apply step_keeps_ids; assumption.
Qed.

Lemma ticket_ids_stay_unique_witness :
  NoDup (map QueueTicket.id
           (queue (run initialState
                     [AddToQueue "general" (Some "Alice") None None 1000 1000;
                      AddToQueue "general" (Some "Bob") None (Some vip) 1005 1005;
                      UpdateTicket "general-1000" (setStatusPatch completed);
                      CallNext 1 "general" 2000]))).
Proof.
  apply (ticket_ids_stay_unique initialState
           [AddToQueue "general" (Some "Alice") None None 1000 1000;
            AddToQueue "general" (Some "Bob") None (Some vip) 1005 1005;
            UpdateTicket "general-1000" (setStatusPatch completed);
            CallNext 1 "general" 2000]).
  - constructor.
  - simpl. repeat split; intuition discriminate.
Defined.

(** X18. With unique ticket ids, [completeService] changes no waiting
    count: the ticket it completes was being served, not waiting. *)
Theorem completeService_keeps_waiting_counts (st : State) (ticketId : string)
    (notes : option string) (now : Z) (serviceType : string) :
  NoDup (map QueueTicket.id (queue st)) ->
  getWaitingCount (completeService st ticketId notes now) serviceType
  = getWaitingCount st serviceType.
Proof.
  intros Hnd. unfold getWaitingCount.
  destruct (completeService_queue st ticketId notes now)
    as [->|[ticket [Hin [Hid [Hs ->]]]]]; [reflexivity|].
  destruct (map_by_id_split (completeTicket now notes) _ _ Hnd Hin)
    as [l1 [l2 [Hq [_ Hmap]]]].
  rewrite Hid in Hmap. rewrite Hmap, Hq, !filter_app. cbn [filter].
  replace (isWaitingFor serviceType ticket) with false
    by (unfold isWaitingFor; rewrite Hs; now rewrite andb_false_r).
  replace (isWaitingFor serviceType (completeTicket now notes ticket)) with false
    by (unfold isWaitingFor; simpl; now rewrite andb_false_r).
  reflexivity.
Qed.

Lemma completeService_keeps_waiting_counts_witness :
  getWaitingCount
    (completeService (snd (callNext aliceThenBob 1 "general" 2000)) "general-1005" None 3000)
    "general"
  = getWaitingCount (snd (callNext aliceThenBob 1 "general" 2000)) "general".
Proof.
  apply (completeService_keeps_waiting_counts
           (snd (callNext aliceThenBob 1 "general" 2000)) "general-1005" None 3000 "general").
  repeat constructor; simpl; intuition discriminate.
Defined.

(** ** Queries *)

(** X19. [getAllWaitingTickets] returns exactly the waiting tickets of the
    queue, each once, ordered by creation timestamp ascending; the tickets
    of a service among them are as many as [getWaitingCount] says. *)
Theorem getAllWaitingTickets_sorted (st : State) :
  Permutation (getAllWaitingTickets st)
    (filter (fun t => status_eqb (QueueTicket.status t) waiting) (queue st))
  /\ StronglySorted (fun a b => QueueTicket.timestamp a <= QueueTicket.timestamp b)
       (getAllWaitingTickets st)
  /\ Forall (fun t => QueueTicket.status t = waiting) (getAllWaitingTickets st)
  /\ (forall s,
        Z.of_nat (List.length
                    (filter (fun t => (QueueTicket.serviceType t =? s)%string)
                       (getAllWaitingTickets st)))
        = getWaitingCount st s).
Proof.
  unfold getAllWaitingTickets. split; [apply sort_perm|].
  split; [apply byTimestamp_sorted|]. split.
  - apply Forall_forall. intros t Ht. apply (proj1 (sort_In _ _ _)) in Ht.
    apply filter_In in Ht. apply status_eqb_eq, Ht.
  - intros s. unfold getWaitingCount.
    rewrite (filter_length_perm _ _ _ (sort_perm byTimestamp _)), filter_filter.
    do 2 f_equal. apply filter_ext. intros t. unfold isWaitingFor. apply andb_comm.
Qed.

Lemma findIndex_bounds {A : Type} (p : A -> bool) (l : list A) (y : A) :
  In y l -> p y = true -> 0 <= JS.findIndex p l < Z.of_nat (List.length l).
Proof.
  induction l as [|x l IH]; [contradiction|]. intros Hin Hp.
  rewrite findIndex_cons. cbn [List.length]. destruct (p x) eqn:Hx; [lia|].
  destruct Hin as [->|Hin]; [congruence|]. specialize (IH Hin Hp).
  destruct (Z.ltb_spec (JS.findIndex p l) 0); lia.
Qed.

(** X20. A position [getTicketPosition] returns belongs to a waiting
    ticket with that id and lies between 1 and the number of tickets
    waiting for that ticket's service. *)
Theorem getTicketPosition_bounds (st : State) (ticketId : string) (p : Z) :
  getTicketPosition st ticketId = Some p ->
  exists t, getTicketById st ticketId = Some t
            /\ QueueTicket.status t = waiting
            /\ 1 <= p <= getWaitingCount st (QueueTicket.serviceType t).
Proof.
  unfold getTicketPosition, getTicketById, getWaitingCount.
  destruct (find _ (queue st)) as [t|] eqn:Hf; [|discriminate].
  destruct (QueueTicket.status t) eqn:Hs; simpl; try discriminate.
  intros [= <-]. exists t. split; [reflexivity|]. split; [exact Hs|].
  destruct (find_some _ _ Hf) as [Hin Hid].
  rewrite <- (sort_length byTimestamp).
  pose proof (findIndex_bounds (fun x => (QueueTicket.id x =? ticketId)%string)
                (JS.sort byTimestamp
                   (filter (isWaitingFor (QueueTicket.serviceType t)) (queue st))) t) as Hb.
  lapply Hb; [clear Hb; intros Hb; specialize (Hb Hid); lia|].
  apply sort_In, filter_In. split; [exact Hin|].
  unfold isWaitingFor. now rewrite String.eqb_refl, Hs.
Qed.

Lemma getTicketPosition_bounds_witness :
  exists t, getTicketById aliceThenBob "general-1000" = Some t
            /\ QueueTicket.status t = waiting
            /\ 1 <= 1 <= getWaitingCount aliceThenBob (QueueTicket.serviceType t).
Proof.
  apply (getTicketPosition_bounds aliceThenBob "general-1000" 1). reflexivity.
Defined.

Lemma find_unique_prefix (l : list ServiceType.t) (s : ServiceType.t) :
  NoDup (map ServiceType.prefix l) -> In s l ->
  find (fun x => (ServiceType.prefix x =? ServiceType.prefix s)%string) l = Some s.
Proof.
  induction l as [|x l IH]; simpl; intros Hnd Hin; [contradiction|].
  inversion Hnd as [|? ? Hx Hnd']; subst.
  destruct (String.eqb_spec (ServiceType.prefix x) (ServiceType.prefix s)) as [E|E].
  - destruct Hin as [->|Hin]; [reflexivity|].
    exfalso. apply Hx. rewrite E. apply in_map, Hin.
  - destruct Hin as [->|Hin]; [congruence|]. apply IH; assumption.
Qed.

(** X21. [getServiceByPrefix] answers undefined exactly when no service has
    the prefix, and, prefixes being distinct, finds every service under its
    own prefix. *)
Theorem getServiceByPrefix_lookup (st : State) (prefix : string) :
  (getServiceByPrefix st prefix = None
   <-> Forall (fun s => ServiceType.prefix s <> prefix) (services st))
  /\ (forall s, NoDup (map ServiceType.prefix (services st)) -> In s (services st) ->
                getServiceByPrefix st (ServiceType.prefix s) = Some s).
Proof.
  unfold getServiceByPrefix. split; [split|].
  - intros H. apply Forall_forall. intros s Hs.
    apply String.eqb_neq. exact (find_none _ _ H s Hs).
  - intros H. rewrite Forall_forall in H.
    destruct (find _ (services st)) as [s|] eqn:E; [|reflexivity].
    destruct (find_some _ _ E) as [Hin Hp]. apply String.eqb_eq in Hp.
    exfalso. exact (H s Hin Hp).
  - intros s Hnd Hin. apply find_unique_prefix; assumption.
Qed.

Lemma getServiceByPrefix_lookup_witness :
  getServiceByPrefix aliceThenBob "D"
  = Some (ServiceType.mk "facility" "Fasilitas" "D" 0 0 0).
Proof.
  refine (proj2 (getServiceByPrefix_lookup aliceThenBob "D")
            (ServiceType.mk "facility" "Fasilitas" "D" 0 0 0) _ _).
  - repeat constructor; simpl; intuition discriminate.
  - right. left. reflexivity.
Defined.

(** ** [updateTicket] and [clearAllData] *)

Lemma applyPatch_empty (t : QueueTicket.t) : applyPatch t Patch.empty = t.
Proof. destruct t. reflexivity. Qed.

(** X22. [updateTicket] with an id that no ticket carries, or with an
    empty set of updates, leaves the state exactly as it was. *)
Theorem updateTicket_nothing_to_do (st : State) (ticketId : string) (updates : Patch.t) :
  (Forall (fun t => QueueTicket.id t <> ticketId) (queue st) ->
   updateTicket st ticketId updates = st)
  /\ updateTicket st ticketId Patch.empty = st.
Proof.
  unfold updateTicket. split.
  - intros H. rewrite (map_unmatched (fun t => applyPatch t updates)) by exact H.
    destruct st; reflexivity.
  - erewrite map_ext; [rewrite map_id; destruct st; reflexivity|].
    intros t. cbv beta. rewrite applyPatch_empty.
    destruct (QueueTicket.id t =? ticketId)%string; reflexivity.
Qed.

Lemma updateTicket_nothing_to_do_witness :
  updateTicket aliceThenBob "general-9999" (setStatusPatch completed) = aliceThenBob.
Proof.
  apply (proj1 (updateTicket_nothing_to_do aliceThenBob "general-9999"
                  (setStatusPatch completed))).
  repeat constructor; discriminate.
Defined.

(** X23. Whatever the state, after [clearAllData] the queue is empty, no
    service has a waiting ticket, every counter is free, and numbering
    starts over: the next ticket of the general service is A001 and that of
    the facility service D001. *)
Theorem clearAllData_starts_over (st : State) (customerName purpose : option string)
    (priority : option Priority) (nowId nowTs : Z) :
  let st' := step st ClearAllData in
  queue st' = []
  /\ (forall s, getWaitingCount st' s = 0)
  /\ Forall (fun c => Counter.currentlyServing c = None) (counters st')
  /\ Forall (fun s => ServiceType.currentNumber s = 0 /\ ServiceType.served s = 0
                      /\ ServiceType.waiting s = 0) (services st')
  /\ fst (addToQueue st' "general" customerName purpose priority nowId nowTs) = "A001"
  /\ fst (addToQueue st' "facility" customerName purpose priority nowId nowTs) = "D001".
Proof.
  cbv zeta. change (step st ClearAllData) with initialState.
  repeat split; repeat constructor.
Qed.

(** * Support-ticket statistics *)

Lemma status_partition (tickets : list Tickets.Ticket) :
  List.length tickets
  = (List.length (Tickets.getTicketsByStatus tickets Tickets.pending)
     + List.length (Tickets.getTicketsByStatus tickets Tickets.inProgress)
     + List.length (Tickets.getTicketsByStatus tickets Tickets.resolved)
     + List.length (Tickets.getTicketsByStatus tickets Tickets.closed))%nat.
Proof.
  unfold Tickets.getTicketsByStatus.
  induction tickets as [|t l IH]; [reflexivity|].
  cbn [filter List.length]. destruct (Tickets.status t); cbn [Tickets.status_eqb List.length]; lia.
Qed.

(** X24. In the statistics of the support tickets every ticket is counted
    once: the total is the sum of the pending, in-progress, resolved and
    closed counts, each of which is the number of tickets
    [getTicketsByStatus] returns for that status, all of them carrying it. *)
Theorem getTicketStats_partition (tickets : list Tickets.Ticket) :
  let stats := Tickets.getTicketStats tickets in
  Tickets.total stats
  = Tickets.pendingCount stats + Tickets.inProgressCount stats
    + Tickets.resolvedCount stats + Tickets.closedCount stats
  /\ Tickets.pendingCount stats
     = Z.of_nat (List.length (Tickets.getTicketsByStatus tickets Tickets.pending))
  /\ Tickets.inProgressCount stats
     = Z.of_nat (List.length (Tickets.getTicketsByStatus tickets Tickets.inProgress))
  /\ Tickets.resolvedCount stats
     = Z.of_nat (List.length (Tickets.getTicketsByStatus tickets Tickets.resolved))
  /\ Tickets.closedCount stats
     = Z.of_nat (List.length (Tickets.getTicketsByStatus tickets Tickets.closed))
  /\ (forall s, Forall (fun t => Tickets.status t = s)
                  (Tickets.getTicketsByStatus tickets s)).
Proof.
  cbv zeta. split.
  - unfold Tickets.getTicketStats. cbn [Tickets.total Tickets.pendingCount
      Tickets.inProgressCount Tickets.resolvedCount Tickets.closedCount].
    rewrite (status_partition tickets) at 1. unfold Tickets.getTicketsByStatus. lia.
  - repeat split. intros s. apply Forall_forall. intros t Ht.
    apply filter_In in Ht. destruct Ht as [_ Ht].
    destruct (Tickets.status t), s; simpl in Ht; congruence.
Qed.

(** * States reachable from the initial one *)

Lemma Forall2_map_eq {A B : Type} (R : A -> A -> Prop) (f : A -> B) (l l' : list A) :
  (forall x y, R x y -> f y = f x) -> Forall2 R l l' -> map f l' = map f l.
Proof.
  intros H. induction 1 as [|x y l l' Hxy _ IH]; simpl; [reflexivity|].
  now rewrite (H x y Hxy), IH.
Qed.

(** X25. In every state the public operations can reach from the initial
    one, the services are the two seeded ones, with their ids and prefixes,
    and the counters are the four seeded ones, with ids 1 to 4: no
    operation creates, removes or renumbers any. *)
Theorem reachable_services_and_counters (ops : list Op) :
  let st := run initialState ops in
  map (fun s => (ServiceType.id s, ServiceType.prefix s)) (services st)
  = [("general", "A"); ("facility", "D")]
  /\ map Counter.id (counters st) = [1; 2; 3; 4].
Proof.
  cbv zeta.
  assert (H : forall st,
             map (fun s => (ServiceType.id s, ServiceType.prefix s)) (services st)
             = [("general", "A"); ("facility", "D")]
             /\ map Counter.id (counters st) = [1; 2; 3; 4] ->
             map (fun s => (ServiceType.id s, ServiceType.prefix s))
               (services (run st ops))
             = [("general", "A"); ("facility", "D")]
             /\ map Counter.id (counters (run st ops)) = [1; 2; 3; 4]).
  { induction ops as [|op ops IH]; intros st Hst; [exact Hst|].
    simpl. apply IH.
    assert (Hd : {op = ClearAllData} + {op <> ClearAllData})
      by (destruct op; (left; reflexivity) || (right; discriminate)).
    destruct Hd as [->|Hop]; [split; reflexivity|].
    destruct Hst as [Hs Hc].
    assert (Hnd : NoDup (map ServiceType.id (services st))).
    { replace (map ServiceType.id (services st))
        with (map fst (map (fun s => (ServiceType.id s, ServiceType.prefix s))
                         (services st)))
        by (rewrite map_map; reflexivity).
      rewrite Hs. repeat constructor; simpl; intuition discriminate. }
    destruct (apply_services st op Hop Hnd) as [h [Hh Hadv]].
    unfold step. rewrite recomputeWaiting_services, recomputeWaiting_counters, Hh.
    split.
    - rewrite <- Hs, !map_map. apply map_ext_in. intros s Hin.
      destruct (Hadv s Hin) as [Hid [_ [Hp _]]]. simpl. now rewrite Hid, Hp.
    - rewrite <- Hc. apply (Forall2_map_eq sameCounter); [|apply apply_counters, Hop].
      intros x y [Hid _]. exact Hid. }
  apply H. split; reflexivity.
Qed.

(** ** Served statistics *)

Lemma callNext_none (st : State) (counterId : Z) (serviceType : string) (now : Z) :
  fst (callNext st counterId serviceType now) = None ->
  snd (callNext st counterId serviceType now) = st.
Proof.
  unfold callNext.
  destruct (nth_error _ 0); [|reflexivity].
  destruct (find _ (counters st)); [|reflexivity].
  destruct (negb _); [reflexivity | discriminate].
Qed.

Lemma countCompleted_perm (q q' : list QueueTicket.t) (s : string) :
  Permutation q q' -> countCompleted q s = countCompleted q' s.
Proof. intros H. unfold countCompleted. now rewrite (filter_length_perm _ _ _ H). Qed.

Lemma countCompleted_replace (l1 l2 : list QueueTicket.t) (t t' : QueueTicket.t) (s : string) :
  countCompleted (l1 ++ t' :: l2) s
  = countCompleted (l1 ++ t :: l2) s
    - (if isCompletedFor s t then 1 else 0) + (if isCompletedFor s t' then 1 else 0).
Proof.
  unfold countCompleted. rewrite !filter_app, !length_app. cbn [filter].
  destruct (isCompletedFor s t), (isCompletedFor s t'); cbn [List.length]; lia.
Qed.

Lemma consistent_recompute (st : State) :
  statisticsConsistent st -> statisticsConsistent (recomputeWaiting st).
Proof.
  intros [Hnd [Hc [Hq Hs]]]. unfold statisticsConsistent.
  rewrite recomputeWaiting_queue, recomputeWaiting_counters, recomputeWaiting_services.
  repeat split; try assumption.
  apply Forall_map. exact Hs.
Qed.

Lemma consistent_apply (st : State) (op : Op) :
  statisticsConsistent st -> noUpdateTicket op -> allowed st op ->
  statisticsConsistent (apply st op).
Proof.
  intros Hst Hno Hal. pose proof Hst as [Hnd [Hc [Hq Hs]]].
  pose proof (proj2 (step_life_cycle st op Hnd Hal)) as Hnd'.
  unfold step in Hnd'. rewrite recomputeWaiting_queue in Hnd'.
  unfold statisticsConsistent. split; [exact Hnd'|]. clear Hnd'.
  destruct op as [serviceType customerName purpose priority nowId nowTs
                 |counterId serviceType now|ticketId notes now|ticketId updates
                 |counterId status|counterId serviceType|]; cbn [apply].
  - (* addToQueue *)
    destruct (find (fun s => (ServiceType.id s =? serviceType)%string) (services st))
      as [service|] eqn:Hf.
    + rewrite (addToQueue_known _ _ _ _ _ _ _ _ Hf). cbn [snd services counters queue].
      match goal with |- context [JS.sort _ (queue st ++ [?t])] => set (newTicket := t) end.
      pose proof (sort_perm byPriorityWaiting (queue st ++ [newTicket])) as Hp.
      split; [exact Hc|]. split.
      * apply (Permutation_Forall (Permutation_sym Hp)). apply Forall_app. split; [exact Hq|].
        constructor; [|constructor]. intros Hx. discriminate Hx.
      * apply Forall_map. rewrite Forall_forall in Hs |- *. intros s0 Hs0.
        replace (ServiceType.served _) with (ServiceType.served s0)
          by (destruct (ServiceType.id s0 =? serviceType)%string; reflexivity).
        replace (ServiceType.id _) with (ServiceType.id s0)
          by (destruct (ServiceType.id s0 =? serviceType)%string; reflexivity).
        rewrite (countCompleted_perm _ _ _ Hp), (Hs s0 Hs0).
        unfold countCompleted. rewrite filter_app, length_app. cbn [filter].
        replace (isCompletedFor (ServiceType.id s0) newTicket) with false
          by (unfold isCompletedFor; simpl; now rewrite andb_false_r).
        cbn [List.length]. lia.
    + rewrite addToQueue_unknown by exact Hf. exact (proj2 Hst).
  - (* callNext *)
    destruct (fst (callNext st counterId serviceType now)) as [t|] eqn:Hret;
      [|rewrite (callNext_none _ _ _ _ Hret); exact (proj2 Hst)].
    destruct (callNext_inv _ _ _ _ _ Hret) as [Hin [Hw [_ [_ [[c [Hfc _]] ->]]]]].
    cbn [services counters queue].
    destruct (find_some _ _ Hfc) as [Hcin Hcid]. apply Z.eqb_eq in Hcid.
    assert (Hnz : counterId <> 0).
    { rewrite Forall_forall in Hc. rewrite <- Hcid. apply Hc, Hcin. }
    destruct (map_by_id_split (callTicket counterId now) _ _ Hnd Hin)
      as [l1 [l2 [Hq0 [_ ->]]]].
    unfold isWaitingFor in Hw. apply andb_prop in Hw. destruct Hw as [_ Hw].
    apply status_eqb_eq in Hw.
    split; [|split].
    + apply Forall_map. rewrite Forall_forall in Hc |- *. intros c0 Hc0.
      destruct (Counter.id c0 =? counterId); simpl; apply Hc, Hc0.
    + rewrite Hq0 in Hq. apply Forall_app in Hq. destruct Hq as [H1 H2].
      pose proof (Forall_inv_tail H2) as H2'. apply Forall_app. split; [exact H1|].
      constructor; [|exact H2']. intros _. exists counterId. split; [reflexivity | exact Hnz].
    + rewrite Forall_forall in Hs |- *. intros s0 Hs0.
      rewrite (Hs s0 Hs0), Hq0,
        (countCompleted_replace l1 l2 t (callTicket counterId now t)).
      unfold isCompletedFor. cbn [callTicket QueueTicket.status QueueTicket.serviceType].
      rewrite Hw. cbn [status_eqb]. rewrite !andb_false_r. lia.
  - (* completeService *)
    destruct (find (fun t => (QueueTicket.id t =? ticketId)%string) (queue st))
      as [ticket|] eqn:Hf;
      [|rewrite completeService_noop by (intros t0; rewrite Hf; discriminate);
        exact (proj2 Hst)].
    destruct (QueueTicket.status ticket) eqn:Hts;
      try (rewrite completeService_noop
             by (intros t0; rewrite Hf; intros [= <-]; congruence);
           exact (proj2 Hst)).
    destruct (find_some _ _ Hf) as [Hin Hid]. apply String.eqb_eq in Hid.
    destruct (completeService_serving st ticketId notes now ticket Hf Hts) as [Hq2 Hrest].
    pose proof Hq as Hq'. rewrite Forall_forall in Hq'.
    destruct (Hq' ticket Hin Hts) as [c [Hca Hcnz]].
    rewrite Hca in Hrest. apply Z.eqb_neq in Hcnz. rewrite Hcnz in Hrest.
    destruct Hrest as [-> ->]. rewrite Hq2. rewrite <- Hid.
    destruct (map_by_id_split (completeTicket now notes) _ _ Hnd Hin)
      as [l1 [l2 [Hq0 [_ ->]]]].
    split; [|split].
    + apply Forall_map. rewrite Forall_forall in Hc |- *. intros c0 Hc0.
      destruct (Counter.id c0 =? c); simpl; apply Hc, Hc0.
    + rewrite Hq0 in Hq. apply Forall_app in Hq. destruct Hq as [H1 H2].
      pose proof (Forall_inv_tail H2) as H2'. apply Forall_app. split; [exact H1|].
      constructor; [|exact H2']. intros Hx. discriminate Hx.
    + apply Forall_map. rewrite Forall_forall in Hs |- *. intros s0 Hs0.
      rewrite (countCompleted_replace l1 l2 ticket (completeTicket now notes ticket)),
        <- Hq0.
      assert (Hid0 : ServiceType.id
                       (if (ServiceType.id s0 =? QueueTicket.serviceType ticket)%string
                        then incrServed s0 else s0) = ServiceType.id s0)
        by (destruct (ServiceType.id s0 =? QueueTicket.serviceType ticket)%string;
            reflexivity).
      rewrite !Hid0. unfold isCompletedFor.
      cbn [completeTicket QueueTicket.status QueueTicket.serviceType].
      rewrite Hts. cbn [status_eqb]. rewrite andb_false_r, andb_true_r.
      rewrite (String.eqb_sym (QueueTicket.serviceType ticket)).
      destruct (ServiceType.id s0 =? QueueTicket.serviceType ticket)%string;
        simpl; rewrite (Hs s0 Hs0); lia.
  - (* updateTicket *)
    contradiction.
  - (* setCounterStatus *)
    cbn [setCounterStatus services counters queue].
    split; [|split; assumption].
    apply Forall_map. rewrite Forall_forall in Hc |- *. intros c0 Hc0.
    destruct (Counter.id c0 =? counterId); simpl; apply Hc, Hc0.
  - (* setCounterService *)
    cbn [setCounterService services counters queue].
    split; [|split; assumption].
    apply Forall_map. rewrite Forall_forall in Hc |- *. intros c0 Hc0.
    destruct (Counter.id c0 =? counterId); simpl; apply Hc, Hc0.
  - (* clearAllData *)
    cbn [clearAllData services counters queue].
    repeat split; repeat constructor; discriminate.
Qed.

(** X26. The served statistics agree with the queue: along any sequence of
    operations other than [updateTicket] (ticket ids being freshly
    generated), starting from a consistent state such as the initial one,
    every service's [served] count is the number of completed tickets of
    that service in the queue; in particular every completion is counted,
    no ticket being assigned to a counter with id 0. *)
Theorem served_counts_completed (st : State) (ops : list Op) :
  statisticsConsistent st ->
  Forall noUpdateTicket ops ->
  allowedAlong st ops ->
  statisticsConsistent (run st ops)
  /\ forall s, In s (services (run st ops)) ->
       ServiceType.served s = countCompleted (queue (run st ops)) (ServiceType.id s).
Proof.
  intros Hst Hno Hal.
  assert (H : statisticsConsistent (run st ops)).
  { revert st Hst Hal. induction Hno as [|op ops Hop _ IH]; intros st Hst Hal; [exact Hst|].
    simpl in Hal. destruct Hal as [Hal1 Hal2]. simpl.
    apply IH; [|exact Hal2]. apply consistent_recompute, consistent_apply; assumption. }
  split; [exact H|].
  destruct H as [_ [_ [_ Hs]]]. rewrite Forall_forall in Hs. exact Hs.
Qed.

Lemma served_counts_completed_witness :
  statisticsConsistent aliceServed.
Proof.
  refine (proj1 (served_counts_completed initialState
                   [AddToQueue "general" (Some "Alice") None None 1000 1000;
                    CallNext 1 "general" 2000;
                    CompleteService "general-1000" None 3000] _ _ _)).
  - repeat split; repeat constructor; discriminate.
  - repeat constructor.
  - simpl. repeat split; try exact I. intros [].
Defined.

(** ** Issued numbers and the queue *)

Lemma countTickets_map (f : QueueTicket.t -> QueueTicket.t) (q : list QueueTicket.t)
    (s : string) :
  (forall x, QueueTicket.serviceType (f x) = QueueTicket.serviceType x) ->
  countTickets (map f q) s = countTickets q s.
Proof.
  intros H. unfold countTickets. f_equal.
  induction q as [|x q IH]; simpl; [reflexivity|].
  rewrite H. destruct (QueueTicket.serviceType x =? s)%string; simpl; now rewrite IH.
Qed.

Lemma numbering_apply (st : State) (op : Op) :
  numberingConsistent st -> noUpdateTicket op -> numberingConsistent (apply st op).
Proof.
  unfold numberingConsistent. intros Hs Hno.
  destruct op as [serviceType customerName purpose priority nowId nowTs
                 |counterId serviceType now|ticketId notes now|ticketId updates
                 |counterId status|counterId serviceType|]; cbn [apply].
  - (* addToQueue *)
    destruct (find (fun s => (ServiceType.id s =? serviceType)%string) (services st))
      as [service|] eqn:Hf;
      [|rewrite addToQueue_unknown by exact Hf; exact Hs].
    rewrite (addToQueue_known _ _ _ _ _ _ _ _ Hf). cbn [snd services queue].
    match goal with |- context [JS.sort _ (queue st ++ [?t])] => set (newTicket := t) end.
    destruct (find_some _ _ Hf) as [Hin Hid]. simpl in Hid. apply String.eqb_eq in Hid.
    apply Forall_map. rewrite Forall_forall in Hs |- *. intros s0 Hs0.
    assert (Hcount : countTickets (JS.sort byPriorityWaiting (queue st ++ [newTicket]))
                       (ServiceType.id s0)
                     = countTickets (queue st) (ServiceType.id s0)
                       + (if (serviceType =? ServiceType.id s0)%string then 1 else 0)).
    { unfold countTickets.
      rewrite (filter_length_perm _ _ _ (sort_perm byPriorityWaiting _)).
      rewrite filter_app, length_app. cbn [filter newTicket QueueTicket.serviceType].
      destruct (serviceType =? ServiceType.id s0)%string; cbn [List.length]; lia. }
    destruct (String.eqb_spec (ServiceType.id s0) serviceType) as [E|E].
    + cbn [setCurrentNumber ServiceType.currentNumber ServiceType.id].
      rewrite Hcount, E, String.eqb_refl, (Hs service Hin), Hid. reflexivity.
    + rewrite Hcount, (Hs s0 Hs0).
      destruct (String.eqb_spec serviceType (ServiceType.id s0)) as [E'|_];
        [congruence | lia].
  - (* callNext *)
    destruct (fst (callNext st counterId serviceType now)) as [t|] eqn:Hret;
      [|rewrite (callNext_none _ _ _ _ Hret); exact Hs].
    destruct (callNext_inv _ _ _ _ _ Hret) as [_ [_ [_ [_ [_ ->]]]]].
    cbn [services queue].
    rewrite Forall_forall in Hs |- *. intros s0 Hs0.
    rewrite countTickets_map; [exact (Hs s0 Hs0)|].
    intros x. destruct (QueueTicket.id x =? QueueTicket.id t)%string; reflexivity.
  - (* completeService *)
    assert (Hg : forall x,
               QueueTicket.serviceType
                 (if (QueueTicket.id x =? ticketId)%string
                  then completeTicket now notes x else x)
               = QueueTicket.serviceType x)
      by (intros x; destruct (QueueTicket.id x =? ticketId)%string; reflexivity).
    unfold completeService.
    destruct (find _ (queue st)) as [ticket|]; [|exact Hs].
    destruct (negb _); [exact Hs|].
    destruct (truthy _); cbn [services queue].
    + apply Forall_map. rewrite Forall_forall in Hs |- *. intros s0 Hs0.
      rewrite countTickets_map by exact Hg.
      destruct (ServiceType.id s0 =? _)%string; simpl; exact (Hs s0 Hs0).
    + rewrite Forall_forall in Hs |- *. intros s0 Hs0.
      rewrite countTickets_map by exact Hg. exact (Hs s0 Hs0).
  - contradiction.
  - exact Hs.
  - exact Hs.
  - cbn [clearAllData services queue]. repeat constructor.
Qed.

(** X27. The numbering agrees with the queue: along any sequence of
    operations other than [updateTicket], starting from a state such as the
    initial one in which it holds, the [currentNumber] of every service is
    the number of tickets of that service in the queue, whatever their
    status. *)
Theorem currentNumber_counts_tickets (st : State) (ops : list Op) :
  numberingConsistent st ->
  Forall noUpdateTicket ops ->
  numberingConsistent (run st ops)
  /\ forall s, In s (services (run st ops)) ->
       ServiceType.currentNumber s = countTickets (queue (run st ops)) (ServiceType.id s).
Proof.
  intros Hst Hno.
  assert (H : numberingConsistent (run st ops)).
  { revert st Hst. induction Hno as [|op ops Hop _ IH]; intros st Hst; [exact Hst|].
    simpl. apply IH. pose proof (numbering_apply st op Hst Hop) as Hs.
    unfold step, numberingConsistent in *.
    rewrite recomputeWaiting_queue, recomputeWaiting_services.
    apply Forall_map. exact Hs. }
  split; [exact H|].
  unfold numberingConsistent in H. rewrite Forall_forall in H. exact H.
Qed.

Lemma currentNumber_counts_tickets_witness : numberingConsistent aliceServed.
Proof.
  refine (proj1 (currentNumber_counts_tickets initialState
                   [AddToQueue "general" (Some "Alice") None None 1000 1000;
                    CallNext 1 "general" 2000;
                    CompleteService "general-1000" None 3000] _ _)).
  - repeat constructor.
  - repeat constructor.
Defined.
